(** * fooocusapi.utils.file_utils: the artifact store

    A shallow embedding of [src/fooocusapi/utils/file_utils.py] and the
    properties its specification states about it.

    The module is glue around three collaborators: an image codec (Pillow), the
    local filesystem (os, os.path, pathlib) and a remote object store
    (supabase).  The Python functions are embedded as state-passing functions
    over a [World] that holds the filesystem, the clock, the process
    environment, the logger output and the trace of calls made to the storage
    client.  Exceptions are values of a result type. *)

From Stdlib Require Import ZArith Ascii List Lia.
From Stdlib Require Import Decimal DecimalString DecimalZ.
From Stdlib Require DecimalPos DecimalFacts.
From Stdlib.Strings Require Byte.
From stdpp Require Import base gmap strings list fin_maps.

Local Open Scope Z_scope.
Set Warnings "-register-all".

(** ** Python run-time values *)

Module Py.

(** The subclasses of [OSError] the filesystem raises. *)
Inductive os_error :=
| FileNotFoundError
| IsADirectoryError
| NotADirectoryError
| FileExistsError
| PermissionError.

(** The exceptions that reach the functions of the module.  [PillowError]
    stands for whatever Pillow raises of its own, when it refuses a buffer or
    a format or fails to encode or decode; [StorageError] for what the
    storage client raises. *)
Inductive exn :=
| KeyError (key : string)
| AttributeError
| TypeError
| ValueError
| RecursionError
| OSError (e : os_error)
| PillowError
| UnicodeDecodeError
| StorageError.

Inductive result (A : Type) :=
| Ok (a : A)
| Raise (e : exn).
Arguments Ok {A} a.
Arguments Raise {A} e.

(** Metadata values: the JSON data model (what [json.loads] gives back),
    tuples, which [json.dumps] writes as arrays, and [VOther], an object of
    any other type, one that has no JSON form and no [encode] method (a set,
    an ndarray).  A [str] is a sequence of code points below 256 (the Latin-1
    range, which is also what a PNG tEXt chunk stores); a [dict] is its list
    of items in insertion order, with string keys.  Floats, bytes and keys
    that are not strings are not modelled. *)
Inductive value :=
| VNone
| VBool (b : bool)
| VInt (z : Z)
| VStr (s : string)
| VList (l : list value)
| VTuple (l : list value)
| VDict (d : list (string * value))
| VOther.

Definition dict := list (string * value).

(** [d[key]] *)
Fixpoint lookup_item (d : dict) (key : string) : option value :=
  match d with
  | [] => None
  | (k, v) :: d' => if String.eqb k key then Some v else lookup_item d' key
  end.

Definition getitem (d : dict) (key : string) : result value :=
  match lookup_item d key with
  | Some v => Ok v
  | None => Raise (KeyError key)
  end.

(** [d[key] = v]: an existing key keeps its position. *)
Fixpoint setitem (d : dict) (key : string) (v : value) : dict :=
  match d with
  | [] => [(key, v)]
  | (k, x) :: d' =>
      if String.eqb k key then (k, v) :: d' else (k, x) :: setitem d' key v
  end.

(** [d != {}] *)
Definition nonempty (d : dict) : bool :=
  match d with [] => false | _ :: _ => true end.

(** The keys of every dict are pairwise distinct: the invariant of the
    Python type. *)
Fixpoint keys_distinct (ks : list string) : bool :=
  match ks with
  | [] => true
  | k :: ks' => negb (existsb (String.eqb k) ks') && keys_distinct ks'
  end.

Fixpoint wf (v : value) : bool :=
  match v with
  | VList l => forallb wf l
  | VTuple l => forallb wf l
  | VDict d =>
      keys_distinct (map fst d) &&
      (fix wf_items (d : list (string * value)) : bool :=
         match d with
         | [] => true
         | (_, x) :: d' => wf x && wf_items d'
         end) d
  | _ => true
  end.

(** The values of the JSON data model: no tuple and no object of another
    type, at any depth. *)
Fixpoint plain (v : value) : bool :=
  match v with
  | VTuple _ => false
  | VOther => false
  | VList l => forallb plain l
  | VDict d =>
      (fix plain_items (d : list (string * value)) : bool :=
         match d with
         | [] => true
         | (_, x) :: d' => plain x && plain_items d'
         end) d
  | _ => true
  end.

(** [x in l] for a list of strings. *)
Definition str_in (x : string) (l : list string) : bool :=
  existsb (String.eqb x) l.

(** [s.replace(old, new)] for one-character [old] and [new]. *)
Fixpoint replace_char (old new : ascii) (s : string) : string :=
  match s with
  | EmptyString => EmptyString
  | String c s' =>
      String (if Ascii.eqb c old then new else c) (replace_char old new s')
  end.

(** [c in s] for a character. *)
Fixpoint occurs (c : ascii) (s : string) : bool :=
  match s with
  | EmptyString => false
  | String x s' => Ascii.eqb x c || occurs c s'
  end.

(** A path with a NUL character names no file: the calls that hand it to
    the system raise ValueError("embedded null byte"), and os.path.exists
    and os.path.isfile answer False. *)
Definition has_nul (p : string) : bool := occurs "000" p.

(** [s.endswith(suffix)] *)
Definition endswith (s suffix : string) : bool :=
  let n := String.length s in
  let k := String.length suffix in
  (k <=? n)%nat && String.eqb (String.substring (n - k) k s) suffix.

End Py.
Export Py.

(** ** Path conventions of the host: os.path and pathlib *)

Module HostPath.

(** [s.startswith(sep)] for a class of separator characters. *)
Definition starts_with_sep (issep : ascii -> bool) (s : string) : bool :=
  match s with
  | EmptyString => false
  | String c _ => issep c
  end.

(** [s.endswith(sep)] *)
Fixpoint ends_with_sep (issep : ascii -> bool) (s : string) : bool :=
  match s with
  | EmptyString => false
  | String c EmptyString => issep c
  | String _ s' => ends_with_sep issep s'
  end.

Fixpoint has_sep (issep : ascii -> bool) (s : string) : bool :=
  match s with
  | EmptyString => false
  | String c s' => issep c || has_sep issep s'
  end.

Fixpoint all_sep (issep : ascii -> bool) (s : string) : bool :=
  match s with
  | EmptyString => true
  | String c s' => issep c && all_sep issep s'
  end.

(** [s.rstrip(seps)] *)
Fixpoint rstrip (issep : ascii -> bool) (s : string) : string :=
  match s with
  | EmptyString => EmptyString
  | String c s' =>
      match rstrip issep s' with
      | EmptyString => if issep c then EmptyString else String c EmptyString
      | r => String c r
      end
  end.

(** [s[:s.rfind(sep) + 1]]: the prefix up to and including the last
    separator. *)
Fixpoint upto_last_sep (issep : ascii -> bool) (s : string) : string :=
  match s with
  | EmptyString => EmptyString
  | String c s' =>
      if has_sep issep s' then String c (upto_last_sep issep s')
      else if issep c then String c EmptyString
      else EmptyString
  end.

(** [s.split(sep)]: never empty, the empty string splits into [[""]]. *)
Fixpoint split (issep : ascii -> bool) (s : string) : list string :=
  match s with
  | EmptyString => [EmptyString]
  | String c s' =>
      if issep c then EmptyString :: split issep s'
      else match split issep s' with
           | [] => [String c EmptyString]
           | h :: t => String c h :: t
           end
  end.

(** [sep.join(parts)] *)
Fixpoint join_with (sep : ascii) (parts : list string) : string :=
  match parts with
  | [] => EmptyString
  | [p] => p
  | p :: ps => p +:+ String sep (join_with sep ps)
  end.

(** The number of separators a string starts with. *)
Fixpoint leading_seps (issep : ascii -> bool) (s : string) : nat :=
  match s with
  | String c s' => if issep c then S (leading_seps issep s') else O
  | EmptyString => O
  end.

(** os.path.join(a, b): an absolute [b] discards [a]. *)
Definition gen_join (issep : ascii -> bool) (sep : ascii) (a b : string) : string :=
  if starts_with_sep issep b then b
  else if String.eqb a EmptyString || ends_with_sep issep a then a +:+ b
  else a +:+ String sep b.

(** os.path.dirname(p): the head of the split at the last separator,
    without its trailing separators unless it consists of separators only. *)
Definition gen_dirname (issep : ascii -> bool) (p : string) : string :=
  let head := upto_last_sep issep p in
  if negb (String.eqb head EmptyString) && negb (all_sep issep head)
  then rstrip issep head else head.

(** The path components pathlib keeps: neither empty nor ".". *)
Definition kept (x : string) : bool :=
  negb (String.eqb x EmptyString) && negb (String.eqb x ".").

(** str(PurePath(s)): the root, then the kept components joined by the
    separator; "." when nothing is left.  [double_root] is the POSIX rule
    that a path starting with exactly two slashes keeps both. *)
Definition gen_str (issep : ascii -> bool) (sep : ascii) (double_root : bool)
    (s : string) : string :=
  let root :=
    if starts_with_sep issep s then
      if double_root && Nat.eqb (leading_seps issep s) 2
      then String sep (String sep EmptyString)
      else String sep EmptyString
    else EmptyString in
  let body := root +:+ join_with sep (List.filter kept (split issep s)) in
  if String.eqb body EmptyString then "." else body.

(** A relative path in normal form: it has no empty component (so it neither
    starts nor ends with a separator and is not empty) and no "." component. *)
Definition normal_rel (issep : ascii -> bool) (p : string) : bool :=
  forallb kept (split issep p).

(** What the code uses of the host's path convention.  [path_str s] is
    [str(Path(s))]. *)
Record flavour := {
  sep : ascii;
  is_sep : ascii -> bool;
  path_join : string -> string -> string;
  path_dirname : string -> string;
  path_str : string -> string;
}.

(** PurePath.as_posix(): [str(self).replace(sep, '/')]. *)
Definition as_posix (fl : flavour) (s : string) : string :=
  replace_char (sep fl) "/" (path_str fl s).

Definition is_slash (c : ascii) : bool := Ascii.eqb c "/".
Definition is_slash_or_backslash (c : ascii) : bool :=
  Ascii.eqb c "/" || Ascii.eqb c "\".

(** posixpath and PurePosixPath. *)
Definition posix : flavour := {|
  sep := "/";
  is_sep := is_slash;
  path_join := gen_join is_slash "/";
  path_dirname := gen_dirname is_slash;
  path_str := gen_str is_slash "/" true;
|}.

(** The backslash convention (ntpath, PureWindowsPath) for paths that have
    neither a drive letter nor a UNC prefix: "/" is an alternative separator
    that pathlib rewrites to a backslash. *)
Definition nt_plain : flavour := {|
  sep := "\";
  is_sep := is_slash_or_backslash;
  path_join := gen_join is_slash_or_backslash "\";
  path_dirname := gen_dirname is_slash_or_backslash;
  path_str := gen_str is_slash_or_backslash "\" false;
|}.

End HostPath.
Export HostPath.

(** ** json.dumps and json.loads *)

Module Json.

Definition dquote : ascii := "034".
Definition backslash : ascii := "\".

(** Lower-case hexadecimal digit of a number below 16. *)
Definition hex_digit (n : N) : ascii :=
  if (n <? 10)%N then ascii_of_N (48 + n) else ascii_of_N (87 + n).

(** json.encoder.py_encode_basestring_ascii, one character: the default
    [ensure_ascii=True] leaves only the printable ASCII characters other
    than the quote and the backslash as they are. *)
Definition escape_char (c : ascii) : string :=
  if Ascii.eqb c dquote then String backslash (String dquote EmptyString)
  else if Ascii.eqb c backslash then String backslash (String backslash EmptyString)
  else if Ascii.eqb c "010" then String backslash "n"
  else if Ascii.eqb c "013" then String backslash "r"
  else if Ascii.eqb c "009" then String backslash "t"
  else if Ascii.eqb c "012" then String backslash "f"
  else if Ascii.eqb c "008" then String backslash "b"
  else
    let n := N_of_ascii c in
    if (32 <=? n)%N && (n <=? 126)%N then String c EmptyString
    else String backslash
           (String "u" (String "0" (String "0"
              (String (hex_digit (N.shiftr n 4))
                 (String (hex_digit (N.land n 15)) EmptyString))))).

Fixpoint escape (s : string) : string :=
  match s with
  | EmptyString => EmptyString
  | String c s' => escape_char c +:+ escape s'
  end.

Definition encode_string (s : string) : string :=
  String dquote (escape s +:+ String dquote EmptyString).

(** int.__repr__ *)
Definition encode_int (z : Z) : string :=
  NilZero.string_of_int (Z.to_int z).

(** The text json.dumps writes for a value it accepts, with the default
    separators [", "] and [": "].  A list and a tuple are written alike.
    An object of another type has no text: [rejects] below refuses it, and
    the empty text stands for it here. *)
Fixpoint encode (v : value) : string :=
  match v with
  | VNone => "null"
  | VBool true => "true"
  | VBool false => "false"
  | VInt z => encode_int z
  | VStr s => encode_string s
  | VList [] => "[]"
  | VList (x :: l) =>
      "[" +:+ encode x +:+
      (fix more (l : list value) : string :=
         match l with
         | [] => "]"
         | y :: l' => ", " +:+ encode y +:+ more l'
         end) l
  | VTuple [] => "[]"
  | VTuple (x :: l) =>
      "[" +:+ encode x +:+
      (fix more (l : list value) : string :=
         match l with
         | [] => "]"
         | y :: l' => ", " +:+ encode y +:+ more l'
         end) l
  | VDict [] => "{}"
  | VDict ((k, x) :: d) =>
      "{" +:+ encode_string k +:+ ": " +:+ encode x +:+
      (fix more (d : list (string * value)) : string :=
         match d with
         | [] => "}"
         | (k', y) :: d' =>
             ", " +:+ encode_string k' +:+ ": " +:+ encode y +:+ more d'
         end) d
  | VOther => EmptyString
  end.

(** What [encode] writes after the first element of a list and after the
    first item of a dict. *)
Fixpoint encode_elems (l : list value) : string :=
  match l with
  | [] => "]"
  | y :: l' => ", " +:+ encode y +:+ encode_elems l'
  end.

Fixpoint encode_members (d : list (string * value)) : string :=
  match d with
  | [] => "}"
  | (k, y) :: d' => ", " +:+ encode_string k +:+ ": " +:+ encode y +:+ encode_members d'
  end.

(** What the interpreter bounds: how many containers json.dumps may enter,
    one inside the other, before the recursion limit is hit, and
    sys.get_int_max_str_digits(), the longest integer that is converted to
    text ([None] where there is no bound, as before Python 3.11). *)
Record limits := {
  max_depth : nat;
  max_digits : option nat;
}.

(** [len(str(abs(z)))] *)
Definition digits (z : Z) : nat := String.length (encode_int (Z.abs z)).

Definition too_long (lim : limits) (z : Z) : bool :=
  match max_digits lim with
  | Some k => (k <? digits z)%nat
  | None => false
  end.

(** The exception json.dumps raises on [v], if any: the first one it meets
    in the order it walks the value.  An integer too long to print raises
    ValueError, an object of another type TypeError, and a container entered
    when [depth] is used up RecursionError. *)
Fixpoint rejects (lim : limits) (depth : nat) (v : value) {struct v} : option exn :=
  match v with
  | VNone => None
  | VBool _ => None
  | VInt z => if too_long lim z then Some ValueError else None
  | VStr _ => None
  | VList l =>
      match depth with
      | O => Some RecursionError
      | S d =>
          (fix first (l : list value) : option exn :=
             match l with
             | [] => None
             | x :: l' =>
                 match rejects lim d x with
                 | Some e => Some e
                 | None => first l'
                 end
             end) l
      end
  | VTuple l =>
      match depth with
      | O => Some RecursionError
      | S d =>
          (fix first (l : list value) : option exn :=
             match l with
             | [] => None
             | x :: l' =>
                 match rejects lim d x with
                 | Some e => Some e
                 | None => first l'
                 end
             end) l
      end
  | VDict items =>
      match depth with
      | O => Some RecursionError
      | S d =>
          (fix first (items : list (string * value)) : option exn :=
             match items with
             | [] => None
             | (_, x) :: items' =>
                 match rejects lim d x with
                 | Some e => Some e
                 | None => first items'
                 end
             end) items
      end
  | VOther => Some TypeError
  end.

(** json.dumps(v) *)
Definition dumps (lim : limits) (v : value) : result string :=
  match rejects lim (max_depth lim) v with
  | Some e => Raise e
  | None => Ok (encode v)
  end.

(** *** The decoder *)

Definition is_ws (c : ascii) : bool :=
  Ascii.eqb c " " || Ascii.eqb c "009" || Ascii.eqb c "010" || Ascii.eqb c "013".

Fixpoint skip_ws (s : string) : string :=
  match s with
  | String c s' => if is_ws c then skip_ws s' else s
  | EmptyString => EmptyString
  end.

(** The rest of [s] after the prefix [lit], if [s] starts with it. *)
Fixpoint expect (lit s : string) : option string :=
  match lit, s with
  | EmptyString, _ => Some s
  | String a lit', String b s' => if Ascii.eqb a b then expect lit' s' else None
  | String _ _, EmptyString => None
  end.

Definition hex_value (c : ascii) : option N :=
  let n := N_of_ascii c in
  if (48 <=? n)%N && (n <=? 57)%N then Some (n - 48)%N
  else if (97 <=? n)%N && (n <=? 102)%N then Some (n - 87)%N
  else if (65 <=? n)%N && (n <=? 70)%N then Some (n - 55)%N
  else None.

Definition hex4 (a b c d : ascii) : option N :=
  match hex_value a, hex_value b, hex_value c, hex_value d with
  | Some x, Some y, Some z, Some t =>
      Some (N.lor (N.shiftl x 12) (N.lor (N.shiftl y 8) (N.lor (N.shiftl z 4) t)))
  | _, _, _, _ => None
  end.

(** The character a one-letter escape stands for. *)
Definition unescape (e : ascii) : option ascii :=
  if Ascii.eqb e dquote then Some dquote
  else if Ascii.eqb e backslash then Some backslash
  else if Ascii.eqb e "/" then Some "/"%char
  else if Ascii.eqb e "n" then Some "010"%char
  else if Ascii.eqb e "r" then Some "013"%char
  else if Ascii.eqb e "t" then Some "009"%char
  else if Ascii.eqb e "f" then Some "012"%char
  else if Ascii.eqb e "b" then Some "008"%char
  else None.

(** json.decoder.scanstring after the opening quote, in strict mode: the
    decoded string and what follows its closing quote.  An escape above
    code point 255 names a code point outside the modelled alphabet and is
    refused. *)
Fixpoint parse_string (s : string) : option (string * string) :=
  match s with
  | EmptyString => None
  | String c r =>
      if Ascii.eqb c dquote then Some (EmptyString, r)
      else if Ascii.eqb c backslash then
        match r with
        | String "u" (String h1 (String h2 (String h3 (String h4 r')))) =>
            match hex4 h1 h2 h3 h4 with
            | Some code =>
                if (code <? 256)%N then
                  match parse_string r' with
                  | Some (str, rest) => Some (String (ascii_of_N code) str, rest)
                  | None => None
                  end
                else None
            | None => None
            end
        | String e r' =>
            match unescape e with
            | Some ch =>
                match parse_string r' with
                | Some (str, rest) => Some (String ch str, rest)
                | None => None
                end
            | None => None
            end
        | EmptyString => None
        end
      else if (N_of_ascii c <? 32)%N then None
      else
        match parse_string r with
        | Some (str, rest) => Some (String c str, rest)
        | None => None
        end
  end.

(** A decimal digit as a constructor of [Decimal.uint]. *)
Definition digit_of (c : ascii) : option (uint -> uint) :=
  if Ascii.eqb c "0" then Some D0
  else if Ascii.eqb c "1" then Some D1
  else if Ascii.eqb c "2" then Some D2
  else if Ascii.eqb c "3" then Some D3
  else if Ascii.eqb c "4" then Some D4
  else if Ascii.eqb c "5" then Some D5
  else if Ascii.eqb c "6" then Some D6
  else if Ascii.eqb c "7" then Some D7
  else if Ascii.eqb c "8" then Some D8
  else if Ascii.eqb c "9" then Some D9
  else None.

(** The longest prefix of digits. *)
Fixpoint read_digits (s : string) : uint * string :=
  match s with
  | EmptyString => (Nil, EmptyString)
  | String c r =>
      match digit_of c with
      | Some d => let (u, rest) := read_digits r in (d u, rest)
      | None => (Nil, s)
      end
  end.

(** The integer part of json.scanner's NUMBER_RE: an optional minus sign,
    then either a single zero or a non-zero digit and all the digits that
    follow it. *)
Definition parse_int (s : string) : option (Z * string) :=
  let (negative, s1) :=
    match s with
    | String "-" r => (true, r)
    | _ => (false, s)
    end in
  match s1 with
  | EmptyString => None
  | String "0" r => Some (0, r)
  | String c _ =>
      match digit_of c with
      | Some _ =>
          let (u, rest) := read_digits s1 in
          Some (if negative then - Z.of_uint u else Z.of_uint u, rest)
      | None => None
      end
  end.

(** [dict(pairs)]: a repeated key keeps its first position and takes the
    last value. *)
Definition dict_of_pairs (pairs : list (string * value)) : dict :=
  fold_left (fun d kv => setitem d (fst kv) (snd kv)) pairs [].

(** The rest of [s] after optional whitespace and the character [c], if
    that is what [s] starts with. *)
Definition accept (c : ascii) (s : string) : option string :=
  match skip_ws s with
  | String x rest => if Ascii.eqb x c then Some rest else None
  | EmptyString => None
  end.

(** json.scanner's scan_once with JSONArray and JSONObject.  [parse_value]
    reads one value after optional whitespace; [parse_elems] and
    [parse_members] read what follows an array element or an object member,
    up to the closing bracket.  The fuel bounds the number of values read.
    A fraction or an exponent after the integer part makes a float, which
    no branch accepts. *)
Fixpoint parse_value (fuel : nat) (s : string) : option (value * string) :=
  match fuel with
  | O => None
  | S n =>
      match skip_ws s with
      | EmptyString => None
      | String c r =>
          if Ascii.eqb c "n" then option_map (pair VNone) (expect "ull" r)
          else if Ascii.eqb c "t" then option_map (pair (VBool true)) (expect "rue" r)
          else if Ascii.eqb c "f" then option_map (pair (VBool false)) (expect "alse" r)
          else if Ascii.eqb c dquote then
            match parse_string r with
            | Some (str, rest) => Some (VStr str, rest)
            | None => None
            end
          else if Ascii.eqb c "[" then
            match accept "]" r with
            | Some rest => Some (VList [], rest)
            | None =>
                match parse_value n r with
                | Some (x, r1) =>
                    match parse_elems n r1 with
                    | Some (xs, rest) => Some (VList (x :: xs), rest)
                    | None => None
                    end
                | None => None
                end
            end
          else if Ascii.eqb c "{" then
            match accept "}" r with
            | Some rest => Some (VDict [], rest)
            | None =>
                match parse_member n r with
                | Some (kv, r1) =>
                    match parse_members n r1 with
                    | Some (kvs, rest) => Some (VDict (dict_of_pairs (kv :: kvs)), rest)
                    | None => None
                    end
                | None => None
                end
            end
          else
            match parse_int (String c r) with
            | Some (z, rest) => Some (VInt z, rest)
            | None => None
            end
      end
  end
with parse_elems (fuel : nat) (s : string) : option (list value * string) :=
  match fuel with
  | O => None
  | S n =>
      match accept "]" s with
      | Some rest => Some ([], rest)
      | None =>
          match accept "," s with
          | Some r =>
              match parse_value n r with
              | Some (x, r1) =>
                  match parse_elems n r1 with
                  | Some (xs, rest) => Some (x :: xs, rest)
                  | None => None
                  end
              | None => None
              end
          | None => None
          end
      end
  end
with parse_member (fuel : nat) (s : string) : option ((string * value) * string) :=
  match fuel with
  | O => None
  | S n =>
      match accept dquote s with
      | Some r =>
          match parse_string r with
          | Some (k, r1) =>
              match accept ":" r1 with
              | Some r2 =>
                  match parse_value n r2 with
                  | Some (x, rest) => Some ((k, x), rest)
                  | None => None
                  end
              | None => None
              end
          | None => None
          end
      | None => None
      end
  end
with parse_members (fuel : nat) (s : string) : option (list (string * value) * string) :=
  match fuel with
  | O => None
  | S n =>
      match accept "}" s with
      | Some rest => Some ([], rest)
      | None =>
          match accept "," s with
          | Some r =>
              match parse_member n r with
              | Some (kv, r1) =>
                  match parse_members n r1 with
                  | Some (kvs, rest) => Some (kv :: kvs, rest)
                  | None => None
                  end
              | None => None
              end
          | None => None
          end
      end
  end.

(** Fuel that is enough to read a value back, and to read the rest of a
    list or of a dict. *)
Fixpoint weight (v : value) : nat :=
  match v with
  | VList [] => 1
  | VList (x :: l) =>
      S (weight x +
         (fix rest (l : list value) : nat :=
            match l with
            | [] => 1
            | y :: l' => S (weight y + rest l')
            end) l)
  | VDict [] => 1
  | VDict ((_, x) :: d) =>
      S (S (weight x) +
         (fix rest (d : list (string * value)) : nat :=
            match d with
            | [] => 1
            | (_, y) :: d' => S (S (weight y) + rest d')
            end) d)
  | _ => 1
  end%nat.

Fixpoint weight_elems (l : list value) : nat :=
  match l with
  | [] => 1
  | y :: l' => S (weight y + weight_elems l')
  end%nat.

Fixpoint weight_members (d : list (string * value)) : nat :=
  match d with
  | [] => 1
  | (_, y) :: d' => S (S (weight y) + weight_members d')
  end%nat.

(** The next character, if any, is not a digit. *)
Definition no_digit_ahead (s : string) : Prop :=
  match s with
  | EmptyString => True
  | String c _ => digit_of c = None
  end.

(** The first digit of a positive number, as a character and as a
    constructor. *)
Inductive leading : ascii -> (uint -> uint) -> Prop :=
| leading1 : leading "1" D1
| leading2 : leading "2" D2
| leading3 : leading "3" D3
| leading4 : leading "4" D4
| leading5 : leading "5" D5
| leading6 : leading "6" D6
| leading7 : leading "7" D7
| leading8 : leading "8" D8
| leading9 : leading "9" D9.

(** [v] is read back from what [encode] wrote, whatever follows it. *)
Definition reads_back (v : value) : Prop :=
  wf v = true -> plain v = true ->
  forall n rest, (weight v <= n)%nat -> no_digit_ahead rest ->
    parse_value n (encode v +:+ rest) = Some (v, rest).

(** json.loads(s): one value, then nothing but whitespace.  [None] stands
    for JSONDecodeError and for a document outside the modelled values.  The
    bounds of the interpreter that reads (recursion, digits) are left
    out. *)
Definition loads (s : string) : option value :=
  match parse_value (S (String.length s)) s with
  | Some (v, rest) =>
      match skip_ws rest with
      | EmptyString => Some v
      | String _ _ => None
      end
  | None => None
  end.

End Json.

(** ** base64.b64encode and bytes.decode *)

Module Base64.

Definition alphabet : list Byte.byte :=
  String.list_byte_of_string
    "ABCDEFGHIJKLMNOPQRSTUVWXYZabcdefghijklmnopqrstuvwxyz0123456789+/".

Definition pad : Byte.byte := Byte.x3d.

(** The character of a sextet. *)
Definition sextet (n : N) : Byte.byte :=
  nth (N.to_nat (N.land n 63)) alphabet pad.

(** Three bytes make four characters; a final group of one or two bytes is
    padded with "=". *)
Fixpoint b64encode (data : list Byte.byte) : list Byte.byte :=
  match data with
  | [] => []
  | [a] =>
      let n := N.shiftl (Byte.to_N a) 16 in
      [sextet (N.shiftr n 18); sextet (N.shiftr n 12); pad; pad]
  | [a; b] =>
      let n := N.lor (N.shiftl (Byte.to_N a) 16) (N.shiftl (Byte.to_N b) 8) in
      [sextet (N.shiftr n 18); sextet (N.shiftr n 12); sextet (N.shiftr n 6); pad]
  | a :: b :: c :: rest =>
      let n := N.lor (N.shiftl (Byte.to_N a) 16)
                 (N.lor (N.shiftl (Byte.to_N b) 8) (Byte.to_N c)) in
      sextet (N.shiftr n 18) :: sextet (N.shiftr n 12) ::
      sextet (N.shiftr n 6) :: sextet n :: b64encode rest
  end.

(** [data.decode('utf-8')] for 7-bit data, on which UTF-8 is the identity.
    A byte above 127 belongs to a multi-byte sequence, whose code point the
    modelled [str] may not hold: the decoder gives no answer there. *)
Fixpoint decode_utf8 (data : list Byte.byte) : option string :=
  match data with
  | [] => Some EmptyString
  | b :: data' =>
      if (Byte.to_N b <? 128)%N then
        match decode_utf8 data' with
        | Some s => Some (String (ascii_of_byte b) s)
        | None => None
        end
      else None
  end.

End Base64.

(** ** The clock *)

Module Clock.

(** [datetime.datetime.now()], the calendar date of it. *)
Record date := { year : nat; month : nat; day : nat }.

Definition digit (n : nat) : ascii := ascii_of_nat (48 + n mod 10).

(** [strftime("%Y-%m-%d")]: the clock never reads a year before 1000 or
    after 9999 (datetime.MAXYEAR), so the year takes four digits. *)
Definition strftime_ymd (d : date) : string :=
  String (digit (year d / 1000)) (String (digit (year d / 100))
    (String (digit (year d / 10)) (String (digit (year d))
      (String "-" (String (digit (month d / 10)) (String (digit (month d))
        (String "-" (String (digit (day d / 10))
          (String (digit (day d)) EmptyString))))))))).

Definition is_digit (c : ascii) : bool :=
  (48 <=? nat_of_ascii c)%nat && (nat_of_ascii c <=? 57)%nat.

(** The shape YYYY-MM-DD. *)
Definition is_ymd (s : string) : bool :=
  match s with
  | String y1 (String y2 (String y3 (String y4 (String "-"
      (String m1 (String m2 (String "-" (String d1 (String d2 EmptyString))))))))) =>
      forallb is_digit [y1; y2; y3; y4; m1; m2; d1; d2]
  | _ => false
  end.

End Clock.
Export Clock.

(** ** Pillow: what a saved file holds *)

Module Pillow.

(** PngInfo(): the text chunks, in the order they were added. *)
Definition PngInfo := list (string * string).

(** PngInfo.add_text(key, value): the text of a chunk is a [str], which is
    encoded as Latin-1 into a tEXt chunk; a value of another type has no
    [encode] and the call raises. *)
Definition add_text (info : PngInfo) (key : string) (v : value) : result PngInfo :=
  match v with
  | VStr s => Ok (info ++ [(key, s)])
  | _ => Raise AttributeError
  end.

(** A file written by Image.save, held by what the encoder was given rather
    than by its bytes: the format, the pixels, the PNG text chunks and the
    optimize flag. *)
Record stored (A : Type) := {
  st_format : string;
  st_image : A;
  st_pnginfo : option PngInfo;
  st_optimize : bool;
}.
Arguments st_format {A} _.
Arguments st_image {A} _.
Arguments st_pnginfo {A} _.
Arguments st_optimize {A} _.

(** Image.open(path).text: the text chunks of a PNG file as a dict, filled
    chunk by chunk. *)
Definition text_chunks {A} (f : stored A) : gmap string string :=
  if String.eqb (st_format f) "png" then
    match st_pnginfo f with
    | Some info => fold_left (fun m kv => <[fst kv := snd kv]> m) info ∅
    | None => ∅
    end
  else ∅.

End Pillow.
Export Pillow.

(** ** The filesystem *)

Module FS.

Inductive content (A : Type) :=
| Picture (f : stored A)
| Blob (data : list Byte.byte).
Arguments Picture {A} f.
Arguments Blob {A} data.

Inductive node (A : Type) :=
| Dir
| File (c : content A).
Arguments Dir {A}.
Arguments File {A} c.

(** What the system is asked to do to a path: os.mkdir, open(p, "w+b") of a
    path that is not there and of one that is, os.remove. *)
Inductive fs_op :=
| Mkdir (p : string)
| Create (p : string)
| Truncate (p : string)
| Unlink (p : string).

(** What the system refuses for reasons the store below does not hold:
    permissions, a read-only file or directory, a full disk.  Creating,
    rewriting and removing one path are refused independently of each
    other. *)
Definition refusal := fs_op -> option os_error.

(** Why a call on a path fails: the system refuses it, or the path holds a
    NUL character and is not handed to the system at all. *)
Inductive failure :=
| Os (e : os_error)
| EmbeddedNul.

(** The store maps a path, as it is spelled, to what is there; two
    spellings of one path are two keys.  A path made of separators only is
    the root, which is always there; a path with a NUL names nothing. *)
Definition is_root (fl : flavour) (p : string) : bool :=
  negb (String.eqb p EmptyString) && all_sep (is_sep fl) p.

Definition stat {A} (fl : flavour) (fs : gmap string (node A)) (p : string)
    : option (node A) :=
  if has_nul p then None
  else if is_root fl p then Some Dir
  else fs !! p.

(** The directories on the way to [s]: every prefix that ends before a
    separator (the empty prefix, the root and prefixes that end in a
    separator apart), then the path itself. *)
Fixpoint ancestors_from (fl : flavour) (pre s : string) : list string :=
  match s with
  | EmptyString => [pre]
  | String c r =>
      (if is_sep fl c && negb (String.eqb pre EmptyString)
          && negb (ends_with_sep (is_sep fl) pre)
       then [pre] else [])
      ++ ancestors_from fl (pre +:+ String c EmptyString) r
  end.

Definition ancestors (fl : flavour) (p : string) : list string :=
  ancestors_from fl EmptyString p.

(** Walk down [l], creating what is missing.  The directories created
    before a failure stay.  Below a file nothing can be created: the
    os.mkdir of the next path fails, with ValueError when that path holds a
    NUL. *)
Fixpoint mkdirs {A} (fl : flavour) (refuses : refusal)
    (fs : gmap string (node A)) (l : list string)
    : option failure * gmap string (node A) :=
  match l with
  | [] => (None, fs)
  | a :: l' =>
      if has_nul a then (Some EmbeddedNul, fs)
      else
        match stat fl fs a with
        | Some Dir => mkdirs fl refuses fs l'
        | Some (File _) =>
            (Some (match l' with
                   | [] => Os FileExistsError
                   | b :: _ => if has_nul b then EmbeddedNul else Os NotADirectoryError
                   end), fs)
        | None =>
            match refuses (Mkdir a) with
            | Some e => (Some (Os e), fs)
            | None => mkdirs fl refuses (<[a := Dir]> fs) l'
            end
        end
  end.

(** os.makedirs(p, exist_ok=True) *)
Definition makedirs {A} (fl : flavour) (refuses : refusal)
    (fs : gmap string (node A)) (p : string)
    : option failure * gmap string (node A) :=
  if String.eqb p EmptyString then (Some (Os FileNotFoundError), fs)
  else mkdirs fl refuses fs (ancestors fl p).

(** open(p, "w+b"): the directory of [p] has to be there ("" is the working
    directory), [p] itself must not be a directory.  The file is created
    when it is not there and emptied when it is. *)
Definition open_wb {A} (fl : flavour) (refuses : refusal)
    (fs : gmap string (node A)) (p : string)
    : option failure * gmap string (node A) :=
  if has_nul p then (Some EmbeddedNul, fs)
  else
    match stat fl fs p with
    | Some Dir => (Some (Os IsADirectoryError), fs)
    | here =>
        let d := path_dirname fl p in
        match (if String.eqb d EmptyString then Some Dir else stat fl fs d) with
        | Some Dir =>
            match refuses (match here with Some _ => Truncate p | None => Create p end) with
            | Some e => (Some (Os e), fs)
            | None => (None, <[p := File (Blob [])]> fs)
            end
        | Some (File _) => (Some (Os NotADirectoryError), fs)
        | None => (Some (Os FileNotFoundError), fs)
        end
    end.

(** os.remove(p) *)
Definition remove {A} (fl : flavour) (refuses : refusal)
    (fs : gmap string (node A)) (p : string)
    : option failure * gmap string (node A) :=
  if has_nul p then (Some EmbeddedNul, fs)
  else
    match stat fl fs p with
    | None => (Some (Os FileNotFoundError), fs)
    | Some Dir => (Some (Os IsADirectoryError), fs)
    | Some (File _) =>
        match refuses (Unlink p) with
        | Some e => (Some (Os e), fs)
        | None => (None, delete p fs)
        end
    end.

End FS.
Export FS.

(** ** The collaborators and the state of the process *)

(** A call made on the storage client [supabase.storage.from_(bucket)]. *)
Inductive storage_call :=
| Upload (bucket : option string) (file : string) (path : string)
    (file_options : list (string * string))
| GetPublicUrl (bucket : option string) (path : string).

Inductive level := INFO | WARN | ERROR.

(** What the module takes from outside and does not decide itself: the type
    of pixel buffers, the path convention of the host, the install location
    behind [output_dir], the bounds of the interpreter that json.dumps runs
    into, which buffers and formats Pillow takes before it opens the file
    ([pil_accepts]: Image.fromarray and the look-up of the writer of the
    format) and which it then encodes ([pil_encodes]), whether Image.save
    removes a file it created when the encoder fails ([pil_cleans_up], which
    depends on the version of Pillow), the bytes Pillow gives when it reopens
    a file and re-encodes it as PNG, when the storage client fails, and the
    public URL it derives for a key. *)
Class Platform := {
  ndarray : Type;
  host : flavour;
  output_dir : string;
  json_limits : Json.limits;
  pil_accepts : ndarray -> string -> bool;
  pil_encodes : ndarray -> string -> bool;
  pil_cleans_up : bool;
  pil_reencode_png : content ndarray -> result (list Byte.byte);
  storage_fault : list storage_call -> storage_call -> option exn;
  public_url : option string -> string -> string;
}.

(** The state of the process and of what surrounds it: the filesystem, what
    the system refuses in this state, the clock, the environment, the log and
    the trace of the calls made on the storage client.  The functions of the
    module change the filesystem, the log and the trace; a statement about
    two calls in a row says of each state what it needs of it. *)
Record World `{Platform} := {
  fs : gmap string (node ndarray);
  refuses : refusal;
  now : date;
  environ : gmap string string;
  log : list (level * string);
  storage_calls : list storage_call;
}.

Section Runtime.
Context `{P : Platform}.

Definition with_fs (w : World) (fs' : gmap string (node ndarray)) : World :=
  {| fs := fs'; refuses := refuses w; now := now w; environ := environ w;
     log := log w; storage_calls := storage_calls w |}.

Definition with_log (w : World) (entry : level * string) : World :=
  {| fs := fs w; refuses := refuses w; now := now w; environ := environ w;
     log := log w ++ [entry]; storage_calls := storage_calls w |}.

Definition with_call (w : World) (c : storage_call) : World :=
  {| fs := fs w; refuses := refuses w; now := now w; environ := environ w;
     log := log w; storage_calls := storage_calls w ++ [c] |}.

(** A computation reads and changes the world and returns or raises; what
    it changed before raising stays changed. *)
Definition M (A : Type) : Type := World -> result A * World.

Definition ret {A} (a : A) : M A := fun w => (Ok a, w).

Definition bind {A B} (m : M A) (k : A -> M B) : M B :=
  fun w =>
    match m w with
    | (Ok a, w') => k a w'
    | (Raise e, w') => (Raise e, w')
    end.

Definition lift {A} (r : result A) : M A := fun w => (r, w).

(** [try: body except OSError: handler] *)
Definition try_except_OSError (body handler : M unit) : M unit :=
  fun w =>
    match body w with
    | (Raise (OSError _), w') => handler w'
    | r => r
    end.

(** The exception of a failure: a refusal of the system is an OSError, a
    NUL in the path a ValueError, which is no OSError. *)
Definition raised (f : failure) : exn :=
  match f with
  | Os e => OSError e
  | EmbeddedNul => ValueError
  end.

Definition os_result (r : option failure * gmap string (node ndarray))
    (w : World) : result unit * World :=
  match r with
  | (None, fs') => (Ok tt, with_fs w fs')
  | (Some f, fs') => (Raise (raised f), with_fs w fs')
  end.

Definition datetime_now : M date := fun w => (Ok (now w), w).

Definition os_environ_get (name : string) : M (option string) :=
  fun w => (Ok (environ w !! name), w).

Definition os_path_exists (p : string) : M bool :=
  fun w => (Ok (bool_decide (is_Some (stat host (fs w) p))), w).

Definition os_path_isfile (p : string) : M bool :=
  fun w =>
    (Ok (match stat host (fs w) p with Some (File _) => true | _ => false end), w).

Definition os_makedirs (p : string) : M unit :=
  fun w => os_result (makedirs host (refuses w) (fs w) p) w.

Definition os_remove (p : string) : M unit :=
  fun w => os_result (remove host (refuses w) (fs w) p) w.

(** Image.fromarray(img).save(file_path, format=..., pnginfo=...,
    optimize=...).  A buffer Image.fromarray does not take, or a format
    without a writer, raises before the file is touched.  Then the file is
    opened with "w+b", which empties a file that is there, and the encoder
    writes into it.  When the encoder fails, the file is left empty, unless
    the open had created it and this Pillow cleans up ([pil_cleans_up]), which
    removes it when the system lets it. *)
Definition Image_fromarray_save (img : ndarray) (file_path format : string)
    (pnginfo : option PngInfo) (optimize : bool) : M unit :=
  fun w =>
    if pil_accepts img format then
      let created := negb (bool_decide (is_Some (stat host (fs w) file_path))) in
      match open_wb host (refuses w) (fs w) file_path with
      | (Some f, fs1) => (Raise (raised f), with_fs w fs1)
      | (None, fs1) =>
          if pil_encodes img format then
            (Ok tt,
             with_fs w
               (<[file_path :=
                    File (Picture {| st_format := format; st_image := img;
                                     st_pnginfo := pnginfo;
                                     st_optimize := optimize |})]> fs1))
          else
            (Raise PillowError,
             with_fs w
               (if created && pil_cleans_up
                   && negb (bool_decide (is_Some (refuses w (Unlink file_path))))
                then delete file_path fs1 else fs1))
      end
    else (Raise PillowError, w).

(** Image.open(file_path), img.save(output_buffer, format='PNG') and
    output_buffer.getvalue(). *)
Definition Image_open_save_png (file_path : string) : M (list Byte.byte) :=
  fun w =>
    if has_nul file_path then (Raise ValueError, w)
    else
      match stat host (fs w) file_path with
      | Some (File c) => (pil_reencode_png c, w)
      | Some Dir => (Raise (OSError IsADirectoryError), w)
      | None => (Raise (OSError FileNotFoundError), w)
      end.

(** supabase.storage.from_(bucket).upload(file=..., path=...,
    file_options=...) *)
Definition storage_upload (bucket : option string) (file path : string)
    (file_options : list (string * string)) : M unit :=
  fun w =>
    let call := Upload bucket file path file_options in
    match storage_fault (storage_calls w) call with
    | Some e => (Raise e, with_call w call)
    | None => (Ok tt, with_call w call)
    end.

(** supabase.storage.from_(bucket).get_public_url(path) *)
Definition storage_get_public_url (bucket : option string) (path : string)
    : M string :=
  fun w => (Ok (public_url bucket path), with_call w (GetPublicUrl bucket path)).

(** Modelled from the spec: fooocusapi.utils.logger is not among the
    sources.  The spec has a warning, a success and an error "reported" or
    "logged" and nothing else said of the logger: std_warn, std_info and
    std_error add an entry of their level to the log and return. *)
Definition logger_std (l : level) (msg : string) : M unit :=
  fun w => (Ok tt, with_log w (l, msg)).

End Runtime.

Declare Scope py_scope.
Delimit Scope py_scope with py.
Notation "'let*' x ':=' m 'in' k" := (bind m (fun x => k))
  (at level 10, x name, m at level 100, k at level 200) : py_scope.
Notation "m1 ';;' m2" := (bind m1 (fun _ => m2))
  (at level 100, right associativity) : py_scope.
Local Open Scope py_scope.

(** ** file_utils.py *)

Section FileUtils.
Context `{P : Platform}.

Definition STATIC_SERVER_BASE : string := "http://127.0.0.1:8888/files/".

(** Lines 35-74. *)
Definition save_output_file (img : ndarray) (image_meta : option dict)
    (image_name extension : string) : M string :=
  let* current_time := datetime_now in
  let date_string := strftime_ymd current_time in
  let filename := path_join host date_string (image_name +:+ "." +:+ extension) in
  let file_path := path_join host output_dir filename in
  let extension :=
    if negb (str_in extension ["png"; "jpeg"; "webp"]) then "png" else extension in
  let image_meta := match image_meta with None => [] | Some d => d end in
  let* meta :=
    if String.eqb extension "png" && nonempty image_meta then
      let meta : PngInfo := [] in
      let* parameters := lift (Json.dumps json_limits (VDict image_meta)) in
      let* meta := lift (add_text meta "parameters" (VStr parameters)) in
      let* scheme := lift (getitem image_meta "metadata_scheme") in
      let* meta := lift (add_text meta "fooocus_scheme" scheme) in
      ret (Some meta)
    else ret None in
  os_makedirs (path_dirname host file_path) ;;
  Image_fromarray_save img file_path extension meta true ;;
  ret (as_posix host filename).

(** Lines 77-90. *)
Definition delete_output_file (filename : string) : M unit :=
  let file_path := path_join host output_dir filename in
  let* found := os_path_exists file_path in
  let* regular := os_path_isfile file_path in
  (if negb found || negb regular then
     logger_std WARN ("[Fooocus API] " +:+ filename +:+ " not exists or is not a file")
   else ret tt) ;;
  try_except_OSError
    (os_remove file_path ;;
     logger_std INFO ("[Fooocus API] Delete output file: " +:+ filename))
    (logger_std ERROR ("[Fooocus API] Delete output file failed: " +:+ filename)).

(** Lines 93-111. *)
Definition output_file_to_base64img (filename : option string) : M (option string) :=
  match filename with
  | None => ret None
  | Some filename =>
      let file_path := path_join host output_dir filename in
      let* found := os_path_exists file_path in
      let* regular := os_path_isfile file_path in
      if negb found || negb regular then ret None
      else
        let* byte_data := Image_open_save_png file_path in
        let* base64_str :=
          lift (match Base64.decode_utf8 (Base64.b64encode byte_data) with
                | Some s => Ok s
                | None => Raise UnicodeDecodeError
                end) in
        ret (Some base64_str)
  end.

(** Lines 114-131. *)
Definition output_file_to_bytesimg (filename : option string)
    : M (option (list Byte.byte)) :=
  match filename with
  | None => ret None
  | Some filename =>
      let file_path := path_join host output_dir filename in
      let* found := os_path_exists file_path in
      let* regular := os_path_isfile file_path in
      if negb found || negb regular then ret None
      else
        let* byte_data := Image_open_save_png file_path in
        ret (Some byte_data)
  end.

(** Lines 133-154. *)
Definition upload_to_storage (filename transaction_id user_id : option string)
    : M (option string) :=
  match filename with
  | None => ret None
  | Some filename =>
  match transaction_id with
  | None => ret None
  | Some transaction_id =>
  match user_id with
  | None => ret None
  | Some user_id =>
      let file_path := path_join host output_dir filename in
      let* found := os_path_exists file_path in
      let* regular := os_path_isfile file_path in
      if negb found || negb regular then ret None
      else
        let* bucket_name := os_environ_get "SUPABASE_BUCKET_NAME" in
        let bucket_path := user_id +:+ "/" +:+ transaction_id +:+ "/" +:+ filename in
        storage_upload bucket_name file_path bucket_path
          [("content-type", "image/jpeg")] ;;
        let* url := storage_get_public_url bucket_name bucket_path in
        ret (Some url)
  end end end.

(** Lines 156-165.  The function takes no world: it reads no file and
    calls no client. *)
Definition get_file_serve_url (filename : option string) : option string :=
  match filename with
  | None => None
  | Some filename => Some (STATIC_SERVER_BASE +:+ replace_char "\" "/" filename)
  end.

(** The names the statements below use for the steps of [save_output_file]:
    the extension after lines 56-57, and [filename] and [file_path] of lines
    53-54 for a save on the day [d]. *)
Definition effective_extension (extension : string) : string :=
  if negb (str_in extension ["png"; "jpeg"; "webp"]) then "png" else extension.

Definition save_filename (d : date) (image_name extension : string) : string :=
  path_join host (strftime_ymd d) (image_name +:+ "." +:+ extension).

Definition save_file_path (d : date) (image_name extension : string) : string :=
  path_join host output_dir (save_filename d image_name extension).

(** Lines 62-66: what [meta] is bound to, or the exception raised there. *)
Definition build_meta (extension : string) (image_meta : dict) : result (option PngInfo) :=
  if String.eqb extension "png" && nonempty image_meta then
    match Json.dumps json_limits (VDict image_meta) with
    | Raise e => Raise e
    | Ok parameters =>
        match lookup_item image_meta "metadata_scheme" with
        | None => Raise (KeyError "metadata_scheme")
        | Some (VStr scheme) =>
            Ok (Some [("parameters", parameters); ("fooocus_scheme", scheme)])
        | Some _ => Raise AttributeError
        end
    end
  else Ok None.

(** Lines 68-74: the directory, the file, the returned path. *)
Definition write_out (img : ndarray) (file_path format : string)
    (meta : option PngInfo) (filename : string) : M string :=
  os_makedirs (path_dirname host file_path) ;;
  Image_fromarray_save img file_path format meta true ;;
  ret (as_posix host filename).

(** [file_path] of the read-style functions: os.path.join(output_dir,
    filename). *)
Definition resolve (filename : string) : string :=
  path_join host output_dir filename.

(** os.path.exists(p) and os.path.isfile(p) both hold. *)
Definition regular_file (w : World) (p : string) : bool :=
  match stat host (fs w) p with
  | Some (File _) => true
  | _ => false
  end.

(** Line 152: the key of the remote object. *)
Definition bucket_path (user_id transaction_id filename : string) : string :=
  user_id +:+ "/" +:+ transaction_id +:+ "/" +:+ filename.

(** Line 30, run when the module is imported:
    os.makedirs(output_dir, exist_ok=True). *)
Definition make_output_dir : M unit := os_makedirs output_dir.

End FileUtils.

(** ** A reference platform *)

(** A 2-dimensional array of 8-bit samples. *)
Definition gray_array := list (list N).

(** A platform to run the functions on: the interpreter has its default
    bounds (room for 1000 nested containers, integers of 4300 digits), Pillow takes
    and encodes every array for the three formats of the module, re-encoding
    gives a fixed sequence of bytes per format of the stored picture, the
    storage always answers, and the public URL is composed the way supabase
    does it. *)
Definition reference (fl : flavour) (root : string) : Platform := {|
  ndarray := gray_array;
  host := fl;
  output_dir := root;
  json_limits := {| Json.max_depth := 1000; Json.max_digits := Some 4300%nat |};
  pil_accepts := fun _ format => str_in format ["png"; "jpeg"; "webp"];
  pil_encodes := fun _ _ => true;
  pil_cleans_up := true;
  pil_reencode_png := fun c =>
    match c with
    | Picture f => Ok (String.list_byte_of_string ("PNG:" +:+ st_format f))
    | Blob _ => Raise PillowError
    end;
  storage_fault := fun _ _ => None;
  public_url := fun bucket path =>
    "https://example.supabase.co/storage/v1/object/public/"
    +:+ match bucket with Some b => b | None => "None" end +:+ "/" +:+ path;
|}.

(** The 10 x 10 black array of the concrete scenario of the specification. *)
Definition black10 : gray_array := repeat (repeat 0%N 10) 10.

(** The system refuses nothing. *)
Definition permissive : refusal := fun _ => None.

(** A fresh process on 2024-03-22: the output directory is there and empty,
    the system refuses nothing, nothing is logged, the storage client has not
    been called. *)
Definition world0 (P : Platform) : @World P := {|
  fs := snd (makedirs host permissive ∅ output_dir);
  refuses := permissive;
  now := {| year := 2024; month := 3; day := 22 |};
  environ := {[ "SUPABASE_BUCKET_NAME" := "images" ]};
  log := [];
  storage_calls := [];
|}.

(** The metadata of the concrete scenario of the specification. *)
Definition meta_v1 : dict :=
  [("metadata_scheme", VStr "v1"); ("prompt", VStr "x")].


(** The name a<NUL>b. *)
Definition name_with_nul : string := String "a" (String "000" (String "b" EmptyString)).

(** The module installed under /app on a POSIX host, and under \app on a
    backslash host. *)
Definition posix_app : Platform := reference posix "/app/outputs/files".

Definition nt_app : Platform := reference nt_plain "\app\outputs\files".

(** * Properties *)

Import Json.

(** ** Strings *)

Lemma string_app_assoc (a b c : string) : (a +:+ b) +:+ c = a +:+ (b +:+ c).
Proof.
  induction a as [|x a IH]; [reflexivity|].
  change (String x ((a +:+ b) +:+ c) = String x (a +:+ b +:+ c)).
  rewrite IH. reflexivity.
Qed.

Lemma string_app_length (a b : string) :
  String.length (a +:+ b) = (String.length a + String.length b)%nat.
Proof.
  induction a as [|x a IH]; [reflexivity|].
  change (S (String.length (a +:+ b)) = S (String.length a + String.length b)).
  rewrite IH. reflexivity.
Qed.

Lemma string_app_cons (c : ascii) (a b : string) :
  String c a +:+ b = String c (a +:+ b).
Proof. reflexivity. Qed.

Lemma string_app_nil_r (a : string) : a +:+ EmptyString = a.
Proof.
  induction a as [|x a IH]; [reflexivity|].
  rewrite string_app_cons, IH. reflexivity.
Qed.

(** ** json: strings *)

Lemma parse_string_escape_char (c : ascii) (t : string) :
  parse_string (escape_char c +:+ t) =
    match parse_string t with
    | Some (str, rest) => Some (String c str, rest)
    | None => None
    end.
Proof.
  destruct c as [[] [] [] [] [] [] [] []]; reflexivity.
Qed.

Lemma parse_string_escape (s rest : string) :
  parse_string (escape s +:+ String dquote rest) = Some (s, rest).
Proof.
  induction s as [|c s IH].
  - reflexivity.
  - change (escape (String c s)) with (escape_char c +:+ escape s).
    rewrite string_app_assoc, parse_string_escape_char, IH. reflexivity.
Qed.

(** ** json: integers *)

Lemma read_digits_uint (u : uint) (rest : string) :
  no_digit_ahead rest ->
  read_digits (NilEmpty.string_of_uint u +:+ rest) = (u, rest).
Proof.
  intros Hrest.
  induction u; simpl NilEmpty.string_of_uint;
    rewrite ?string_app_cons; simpl read_digits; rewrite ?IHu; try reflexivity.
  destruct rest as [|c rest]; [reflexivity|].
  simpl in *. rewrite Hrest. reflexivity.
Qed.

Lemma to_uint_leading (p : positive) :
  exists c d u, leading c d /\ Pos.to_uint p = d u /\
    NilZero.string_of_uint (d u) = String c (NilEmpty.string_of_uint u).
Proof.
  pose proof (DecimalPos.Unsigned.to_uint_nonzero p) as Hnz.
  pose proof (DecimalPos.Unsigned.to_of (Pos.to_uint p)) as Hnorm.
  rewrite DecimalPos.Unsigned.of_to in Hnorm. simpl in Hnorm.
  destruct (Pos.to_uint p) as [|u|u|u|u|u|u|u|u|u|u] eqn:Hp.
  - exfalso. revert Hp. apply DecimalPos.Unsigned.to_uint_nonnil.
  - exfalso. rewrite DecimalFacts.unorm_D0 in Hnorm.
    pose proof (DecimalFacts.nb_digits_unorm u) as Hlen.
    destruct u as [|u|u|u|u|u|u|u|u|u|u]; [apply Hnz; reflexivity| | | | | | | | | |];
      (rewrite <- Hnorm in Hlen; simpl in Hlen;
       specialize (Hlen ltac:(discriminate)); lia).
  - exists "1"%char, D1, u. repeat split. constructor.
  - exists "2"%char, D2, u. repeat split. constructor.
  - exists "3"%char, D3, u. repeat split. constructor.
  - exists "4"%char, D4, u. repeat split. constructor.
  - exists "5"%char, D5, u. repeat split. constructor.
  - exists "6"%char, D6, u. repeat split. constructor.
  - exists "7"%char, D7, u. repeat split. constructor.
  - exists "8"%char, D8, u. repeat split. constructor.
  - exists "9"%char, D9, u. repeat split. constructor.
Qed.

Lemma of_uint_to_uint (p : positive) : Z.of_uint (Pos.to_uint p) = Z.pos p.
Proof. unfold Z.of_uint. rewrite DecimalPos.Unsigned.of_to. reflexivity. Qed.

(** The shape of a printed integer. *)
Lemma encode_int_cases (z : Z) :
  (z = 0 /\ encode_int z = "0") \/
  exists c d u, leading c d /\
    ((encode_int z = String c (NilEmpty.string_of_uint u) /\ Z.of_uint (d u) = z) \/
     (encode_int z = String "-" (String c (NilEmpty.string_of_uint u)) /\
      - Z.of_uint (d u) = z)).
Proof.
  destruct z as [|p|p].
  - left. split; reflexivity.
  - right. destruct (to_uint_leading p) as (c & d & u & Hl & Hu & Hs).
    exists c, d, u. split; [exact Hl|]. left.
    unfold encode_int. simpl. rewrite Hu. split; [exact Hs|].
    rewrite <- Hu. apply of_uint_to_uint.
  - right. destruct (to_uint_leading p) as (c & d & u & Hl & Hu & Hs).
    exists c, d, u. split; [exact Hl|]. right.
    unfold encode_int. simpl. rewrite Hu. split.
    + unfold NilZero.string_of_uint in Hs. destruct Hl; simpl in *; reflexivity.
    + rewrite <- Hu, of_uint_to_uint. reflexivity.
Qed.

Lemma parse_value_int (n : nat) (z : Z) (rest : string) :
  no_digit_ahead rest ->
  parse_value (S n) (encode_int z +:+ rest) = Some (VInt z, rest).
Proof.
  intros Hrest.
  destruct (encode_int_cases z) as [[-> ->]|(c & d & u & Hl & [[-> <-]|[-> <-]])].
  - reflexivity.
  - destruct Hl; rewrite string_app_cons; simpl; unfold parse_int; simpl;
      rewrite (read_digits_uint u rest Hrest); reflexivity.
  - destruct Hl; rewrite !string_app_cons; simpl; unfold parse_int; simpl;
      rewrite (read_digits_uint u rest Hrest); reflexivity.
Qed.

Lemma accept_close_int (z : Z) (t : string) :
  accept "]" (encode_int z +:+ t) = None.
Proof.
  destruct (encode_int_cases z) as [[-> ->]|(c & d & u & Hl & [[-> _]|[-> _]])].
  - reflexivity.
  - destruct Hl; reflexivity.
  - reflexivity.
Qed.

Lemma encode_int_length (z : Z) : (1 <= String.length (encode_int z))%nat.
Proof.
  destruct (encode_int_cases z) as [[-> ->]|(c & d & u & Hl & [[-> _]|[-> _]])];
    simpl; lia.
Qed.

(** ** json: values *)

Lemma value_ind_nested (Q : value -> Prop) :
  Q VNone -> (forall b, Q (VBool b)) -> (forall z, Q (VInt z)) ->
  (forall s, Q (VStr s)) ->
  (forall l, Forall Q l -> Q (VList l)) ->
  (forall l, Forall Q l -> Q (VTuple l)) ->
  (forall d, Forall (fun kv => Q (snd kv)) d -> Q (VDict d)) ->
  Q VOther ->
  forall v, Q v.
Proof.
  intros HN HB HZ HS HL HT HD HO.
  fix IH 1. intros [| b | z | s | l | l | d |].
  - exact HN.
  - apply HB.
  - apply HZ.
  - apply HS.
  - apply HL. induction l as [|x l IHl]; constructor; [apply IH|exact IHl].
  - apply HT. induction l as [|x l IHl]; constructor; [apply IH|exact IHl].
  - apply HD. induction d as [|[k x] d IHd]; constructor; [apply IH|exact IHd].
  - exact HO.
Qed.

Lemma wf_dict (d : list (string * value)) :
  wf (VDict d) = keys_distinct (map fst d) && forallb (fun kv => wf (snd kv)) d.
Proof.
  simpl. f_equal. induction d as [|[k x] d IH]; [reflexivity|].
  simpl. rewrite IH. reflexivity.
Qed.

Lemma plain_dict (d : list (string * value)) :
  plain (VDict d) = forallb (fun kv => plain (snd kv)) d.
Proof.
  simpl. induction d as [|[k x] d IH]; [reflexivity|].
  simpl. rewrite IH. reflexivity.
Qed.

Lemma encode_list (x : value) (l : list value) :
  encode (VList (x :: l)) = "[" +:+ encode x +:+ encode_elems l.
Proof. reflexivity. Qed.

Lemma encode_tuple (l : list value) : encode (VTuple l) = encode (VList l).
Proof. destruct l; reflexivity. Qed.

Lemma encode_dict (k : string) (x : value) (d : list (string * value)) :
  encode (VDict ((k, x) :: d))
  = "{" +:+ encode_string k +:+ ": " +:+ encode x +:+ encode_members d.
Proof. reflexivity. Qed.

Lemma weight_list (x : value) (l : list value) :
  weight (VList (x :: l)) = S (weight x + weight_elems l).
Proof. reflexivity. Qed.

Lemma weight_dict (k : string) (x : value) (d : list (string * value)) :
  weight (VDict ((k, x) :: d)) = S (S (weight x) + weight_members d).
Proof. reflexivity. Qed.

Lemma parse_value_space (n : nat) (s : string) :
  parse_value n (String " " s) = parse_value n s.
Proof. destruct n; reflexivity. Qed.

Lemma accept_close_encode (v : value) (t : string) :
  plain v = true -> accept "]" (encode v +:+ t) = None.
Proof.
  destruct v as [| [] | z | s | [|x l] | l | [|[k x] d] |];
    try reflexivity; try discriminate.
  intros _. apply accept_close_int.
Qed.

Lemma no_digit_ahead_elems (l : list value) (rest : string) :
  no_digit_ahead (encode_elems l +:+ rest).
Proof. destruct l; reflexivity. Qed.

Lemma no_digit_ahead_members (d : list (string * value)) (rest : string) :
  no_digit_ahead (encode_members d +:+ rest).
Proof. destruct d as [|[k x] d]; reflexivity. Qed.

Lemma elems_read_back (l : list value) :
  Forall reads_back l -> forallb wf l = true -> forallb plain l = true ->
  forall n rest, (weight_elems l <= n)%nat ->
    parse_elems n (encode_elems l +:+ rest) = Some (l, rest).
Proof.
  induction l as [|y l IH]; intros Hall Hwf Hpl n rest Hn.
  - destruct n; [simpl in Hn; lia|]. reflexivity.
  - apply Forall_cons in Hall as [Hy Hl].
    simpl in Hwf. apply andb_prop in Hwf as [Hwy Hwl].
    simpl in Hpl. apply andb_prop in Hpl as [Hpy Hpl].
    simpl in Hn. destruct n as [|n]; [lia|].
    simpl encode_elems. rewrite !string_app_assoc.
    change (parse_elems (S n) (", " +:+ encode y +:+ encode_elems l +:+ rest))
      with (match parse_value n (String " " (encode y +:+ encode_elems l +:+ rest)) with
            | Some (x, r1) =>
                match parse_elems n r1 with
                | Some (xs, rest0) => Some (x :: xs, rest0)
                | None => None
                end
            | None => None
            end).
    rewrite parse_value_space.
    rewrite (Hy Hwy Hpy n _ ltac:(lia) (no_digit_ahead_elems l rest)).
    rewrite (IH Hl Hwl Hpl n rest ltac:(lia)). reflexivity.
Qed.

Lemma encode_string_app (k rest : string) :
  encode_string k +:+ rest = String dquote (escape k +:+ String dquote rest).
Proof.
  unfold encode_string. rewrite string_app_cons, string_app_assoc. reflexivity.
Qed.

Lemma member_read_back (k : string) (x : value) (n : nat) (rest : string) :
  parse_value n (encode x +:+ rest) = Some (x, rest) ->
  parse_member (S n) (encode_string k +:+ ": " +:+ encode x +:+ rest)
  = Some ((k, x), rest).
Proof.
  intros Hx. rewrite encode_string_app.
  change (parse_member (S n)
            (String dquote (escape k +:+ String dquote (": " +:+ encode x +:+ rest))))
    with (match parse_string (escape k +:+ String dquote (": " +:+ encode x +:+ rest)) with
          | Some (k0, r1) =>
              match accept ":" r1 with
              | Some r2 =>
                  match parse_value n r2 with
                  | Some (x0, rest0) => Some ((k0, x0), rest0)
                  | None => None
                  end
              | None => None
              end
          | None => None
          end).
  rewrite parse_string_escape. cbv beta iota.
  change (accept ":" (": " +:+ encode x +:+ rest))
    with (Some (String " " (encode x +:+ rest))).
  cbv beta iota. rewrite parse_value_space, Hx. reflexivity.
Qed.

Lemma members_read_back (d : list (string * value)) :
  Forall (fun kv => reads_back (snd kv)) d ->
  forallb (fun kv => wf (snd kv)) d = true ->
  forallb (fun kv => plain (snd kv)) d = true ->
  forall n rest, (weight_members d <= n)%nat ->
    parse_members n (encode_members d +:+ rest) = Some (d, rest).
Proof.
  induction d as [|[k y] d IH]; intros Hall Hwf Hpl n rest Hn.
  - destruct n; [simpl in Hn; lia|]. reflexivity.
  - apply Forall_cons in Hall as [Hy Hd].
    simpl in Hwf. apply andb_prop in Hwf as [Hwy Hwd].
    simpl in Hpl. apply andb_prop in Hpl as [Hpy Hpd].
    simpl in Hn. destruct n as [|n]; [lia|]. destruct n as [|m]; [lia|].
    simpl encode_members. rewrite !string_app_assoc.
    change (parse_members (S (S m))
              (", " +:+ encode_string k +:+ ": " +:+ encode y +:+ encode_members d +:+ rest))
      with (match parse_member (S m)
                    (String " " (encode_string k +:+ ": " +:+ encode y +:+ encode_members d +:+ rest)) with
            | Some (kv, r1) =>
                match parse_members (S m) r1 with
                | Some (kvs, rest0) => Some (kv :: kvs, rest0)
                | None => None
                end
            | None => None
            end).
    change (parse_member (S m)
              (String " " (encode_string k +:+ ": " +:+ encode y +:+ encode_members d +:+ rest)))
      with (parse_member (S m)
              (encode_string k +:+ ": " +:+ encode y +:+ encode_members d +:+ rest)).
    rewrite (member_read_back k y m (encode_members d +:+ rest)).
    + rewrite (IH Hd Hwd Hpd (S m) rest ltac:(lia)). reflexivity.
    + apply (Hy Hwy Hpy); [simpl; lia|apply no_digit_ahead_members].
Qed.

Lemma keys_distinct_NoDup (ks : list string) :
  keys_distinct ks = true -> NoDup ks.
Proof.
  induction ks as [|k ks IH]; simpl; intros H; constructor.
  - apply andb_prop in H as [H _]. apply negb_true_iff in H.
    intros Hin. apply list_elem_of_In in Hin.
    assert (existsb (String.eqb k) ks = true) as E.
    { apply existsb_exists. exists k. split; [exact Hin|apply String.eqb_refl]. }
    congruence.
  - apply IH. apply andb_prop in H as [_ H]. exact H.
Qed.

Lemma setitem_fresh (d : dict) (k : string) (v : value) :
  k ∉ map fst d -> setitem d k v = d ++ [(k, v)].
Proof.
  induction d as [|[k' x] d IH]; intros Hk; [reflexivity|].
  simpl in *. apply not_elem_of_cons in Hk as [Hne Hk].
  destruct (String.eqb_spec k' k) as [->|_]; [congruence|].
  rewrite (IH Hk). reflexivity.
Qed.

Lemma dict_of_pairs_distinct (d : list (string * value)) :
  keys_distinct (map fst d) = true -> dict_of_pairs d = d.
Proof.
  intros Hd. apply keys_distinct_NoDup in Hd.
  unfold dict_of_pairs.
  assert (H : forall acc, NoDup (map fst (acc ++ d)) ->
            fold_left (fun d0 kv => setitem d0 (fst kv) (snd kv)) d acc = acc ++ d).
  { clear Hd. induction d as [|[k x] d IH]; intros acc Hnd; simpl.
    - rewrite app_nil_r. reflexivity.
    - rewrite setitem_fresh.
      + rewrite IH; rewrite <- app_assoc; [reflexivity|exact Hnd].
      + rewrite map_app in Hnd. apply NoDup_app in Hnd as (_ & Hdisj & _).
        intros Hin. apply (Hdisj k Hin). simpl. left. }
  apply (H []). exact Hd.
Qed.

Theorem encode_read_back (v : value) : reads_back v.
Proof.
  induction v as [| b | z | s | l IHl | l IHl | d IHd |] using value_ind_nested;
    intros Hwf Hplain n rest Hn Hrest; try discriminate Hplain.
  - destruct n; [simpl in Hn; lia|]. reflexivity.
  - destruct n; [simpl in Hn; lia|]. destruct b; reflexivity.
  - destruct n; [simpl in Hn; lia|]. apply parse_value_int. exact Hrest.
  - destruct n; [simpl in Hn; lia|].
    change (encode (VStr s)) with (encode_string s). rewrite encode_string_app.
    change (parse_value (S n) (String dquote (escape s +:+ String dquote rest)))
      with (match parse_string (escape s +:+ String dquote rest) with
            | Some (str, rest0) => Some (VStr str, rest0)
            | None => None
            end).
    rewrite parse_string_escape. reflexivity.
  - destruct l as [|x l].
    + destruct n; [simpl in Hn; lia|]. reflexivity.
    + rewrite weight_list in Hn. destruct n as [|n]; [lia|].
      apply Forall_cons in IHl as [Hx Hl].
      simpl in Hwf. apply andb_prop in Hwf as [Hwx Hwl].
      simpl in Hplain. apply andb_prop in Hplain as [Hpx Hpl].
      rewrite encode_list, !string_app_assoc.
      change (parse_value (S n) ("[" +:+ encode x +:+ encode_elems l +:+ rest))
        with (match accept "]" (encode x +:+ encode_elems l +:+ rest) with
              | Some rest0 => Some (VList [], rest0)
              | None =>
                  match parse_value n (encode x +:+ encode_elems l +:+ rest) with
                  | Some (x0, r1) =>
                      match parse_elems n r1 with
                      | Some (xs, rest0) => Some (VList (x0 :: xs), rest0)
                      | None => None
                      end
                  | None => None
                  end
              end).
      rewrite (accept_close_encode x _ Hpx).
      rewrite (Hx Hwx Hpx n _ ltac:(lia) (no_digit_ahead_elems l rest)).
      rewrite (elems_read_back l Hl Hwl Hpl n rest ltac:(lia)). reflexivity.
  - destruct d as [|[k x] d].
    + destruct n; [simpl in Hn; lia|]. reflexivity.
    + rewrite weight_dict in Hn. destruct n as [|n]; [lia|].
      destruct n as [|m]; [lia|].
      apply Forall_cons in IHd as [Hx Hd]. simpl in Hx.
      rewrite wf_dict in Hwf. apply andb_prop in Hwf as [Hkeys Hwf].
      simpl in Hwf. apply andb_prop in Hwf as [Hwx Hwd].
      rewrite plain_dict in Hplain. simpl in Hplain.
      apply andb_prop in Hplain as [Hpx Hpd].
      rewrite encode_dict, !string_app_assoc.
      change (parse_value (S (S m))
                ("{" +:+ encode_string k +:+ ": " +:+ encode x +:+ encode_members d +:+ rest))
        with (match accept "}" (encode_string k +:+ ": " +:+ encode x +:+ encode_members d +:+ rest) with
              | Some rest0 => Some (VDict [], rest0)
              | None =>
                  match parse_member (S m)
                          (encode_string k +:+ ": " +:+ encode x +:+ encode_members d +:+ rest) with
                  | Some (kv, r1) =>
                      match parse_members (S m) r1 with
                      | Some (kvs, rest0) => Some (VDict (dict_of_pairs (kv :: kvs)), rest0)
                      | None => None
                      end
                  | None => None
                  end
              end).
      change (accept "}" (encode_string k +:+ ": " +:+ encode x +:+ encode_members d +:+ rest))
        with (@None string).
      rewrite (member_read_back k x m (encode_members d +:+ rest)).
      * rewrite (members_read_back d Hd Hwd Hpd (S m) rest ltac:(lia)).
        rewrite (dict_of_pairs_distinct ((k, x) :: d) Hkeys). reflexivity.
      * apply (Hx Hwx Hpx); [lia|apply no_digit_ahead_members].
Qed.

Lemma weight_elems_le (l : list value) :
  Forall (fun v => (weight v <= S (String.length (encode v)))%nat) l ->
  (weight_elems l <= String.length (encode_elems l))%nat.
Proof.
  induction 1 as [|y l Hy _ IH]; simpl; [lia|].
  repeat rewrite string_app_length. simpl. lia.
Qed.

Lemma weight_members_le (d : list (string * value)) :
  Forall (fun kv => (weight (snd kv) <= S (String.length (encode (snd kv))))%nat) d ->
  (weight_members d <= String.length (encode_members d))%nat.
Proof.
  induction 1 as [|[k y] d Hy _ IH]; simpl in *; [lia|].
  repeat rewrite string_app_length. simpl. lia.
Qed.

(** The text of a value is long enough to serve as the fuel of reading it
    back. *)
Lemma weight_le_length (v : value) : (weight v <= S (String.length (encode v)))%nat.
Proof.
  induction v as [| b | z | s | l IHl | l IHl | d IHd |] using value_ind_nested.
  - simpl. lia.
  - destruct b; simpl; lia.
  - pose proof (encode_int_length z). simpl. lia.
  - simpl. lia.
  - destruct l as [|x l]; [simpl; lia|].
    rewrite weight_list, encode_list.
    apply Forall_cons in IHl as [Hx Hl]. apply weight_elems_le in Hl.
    repeat rewrite string_app_length. simpl. lia.
  - simpl. lia.
  - destruct d as [|[k x] d]; [simpl; lia|].
    rewrite weight_dict, encode_dict.
    apply Forall_cons in IHd as [Hx Hd]. apply weight_members_le in Hd. simpl in Hx.
    repeat rewrite string_app_length. simpl. lia.
  - simpl. lia.
Qed.

(** json.loads reads back the text of every value of the JSON data model. *)
Theorem loads_encode (v : value) :
  wf v = true -> plain v = true -> loads (encode v) = Some v.
Proof.
  intros Hwf Hplain. unfold loads.
  pose proof (encode_read_back v Hwf Hplain (S (String.length (encode v))) EmptyString) as H.
  rewrite string_app_nil_r in H.
  rewrite H; [reflexivity|apply weight_le_length|exact I].
Qed.

(** A list and a tuple are written alike, so a tuple is read back as a
    list. *)
Lemma loads_encode_tuple (l : list value) :
  wf (VList l) = true -> plain (VList l) = true ->
  loads (encode (VTuple l)) = Some (VList l).
Proof. intros Hwf Hplain. rewrite encode_tuple. apply loads_encode; assumption. Qed.

(** ** json.dumps: what it raises *)





(** ** Path conventions *)

Lemma split_nonempty (issep : ascii -> bool) (s : string) : split issep s <> [].
Proof.
  destruct s as [|c s]; simpl; [discriminate|].
  destruct (issep c); [discriminate|].
  destruct (split issep s); discriminate.
Qed.

Lemma split_app_sep (issep : ascii -> bool) (d : string) (c : ascii) (p : string) :
  has_sep issep d = false -> issep c = true ->
  split issep (d +:+ String c p) = d :: split issep p.
Proof.
  intros Hd Hc. induction d as [|x d IH].
  - simpl. rewrite Hc. reflexivity.
  - simpl in Hd. apply orb_false_elim in Hd as [Hx Hd].
    rewrite string_app_cons. simpl. rewrite Hx, (IH Hd). reflexivity.
Qed.

Lemma filter_all {A} (f : A -> bool) (l : list A) :
  forallb f l = true -> List.filter f l = l.
Proof.
  induction l as [|x l IH]; simpl; [reflexivity|].
  intros H. apply andb_prop in H as [Hx Hl]. rewrite Hx, (IH Hl). reflexivity.
Qed.

Lemma replace_char_same (c : ascii) (s : string) : replace_char c c s = s.
Proof.
  induction s as [|x s IH]; simpl; [reflexivity|].
  rewrite IH. destruct (Ascii.eqb_spec x c); congruence.
Qed.

Lemma ends_with_sep_app (issep : ascii -> bool) (d : string) :
  has_sep issep d = false -> ends_with_sep issep d = false.
Proof.
  induction d as [|x d IH]; [reflexivity|].
  simpl. intros H. apply orb_false_elim in H as [Hx Hd].
  destruct d; [exact Hx|apply IH; exact Hd].
Qed.

Lemma normal_rel_start (issep : ascii -> bool) (p : string) :
  normal_rel issep p = true -> starts_with_sep issep p = false.
Proof.
  unfold normal_rel. destruct p as [|c p]; [reflexivity|].
  simpl. destruct (issep c); [|reflexivity].
  simpl. discriminate.
Qed.

Lemma replace_char_cons (old new c : ascii) (s : string) :
  replace_char old new (String c s)
  = String (if Ascii.eqb c old then new else c) (replace_char old new s).
Proof. reflexivity. Qed.

Lemma replace_char_app (old new : ascii) (a b : string) :
  replace_char old new (a +:+ b) = replace_char old new a +:+ replace_char old new b.
Proof.
  induction a as [|x a IH]; [reflexivity|].
  rewrite string_app_cons. simpl. rewrite IH. reflexivity.
Qed.

Lemma replace_char_no_sep (issep : ascii -> bool) (sep new : ascii) (d : string) :
  issep sep = true -> has_sep issep d = false -> replace_char sep new d = d.
Proof.
  intros Hsep. induction d as [|x d IH]; [reflexivity|].
  simpl. intros H. apply orb_false_elim in H as [Hx Hd]. rewrite (IH Hd).
  destruct (Ascii.eqb_spec x sep) as [->|_]; [congruence|reflexivity].
Qed.

(** Joining the components with the separator and writing the separator as
    a slash is writing every separator of the path as a slash. *)
Lemma replace_join_split (issep : ascii -> bool) (sep : ascii) (s : string) :
  (forall c, issep c = true -> c = sep \/ c = "/"%char) ->
  replace_char sep "/" (join_with sep (split issep s)) = replace_char sep "/" s.
Proof.
  intros Hsep. induction s as [|c s IH]; [reflexivity|].
  pose proof (split_nonempty issep s) as Hne.
  simpl split. destruct (issep c) eqn:Hc.
  - destruct (split issep s) as [|h t]; [congruence|].
    change (join_with sep (EmptyString :: h :: t))
      with (String sep (join_with sep (h :: t))).
    cbn [replace_char]. rewrite IH, Ascii.eqb_refl.
    destruct (Hsep c Hc) as [->| ->].
    + rewrite Ascii.eqb_refl. reflexivity.
    + destruct (Ascii.eqb "/" sep); reflexivity.
  - destruct (split issep s) as [|h t]; [congruence|].
    destruct t as [|h' t].
    + simpl in *. rewrite IH. reflexivity.
    + change (join_with sep (String c h :: h' :: t))
        with (String c (join_with sep (h :: h' :: t))).
      cbn [replace_char]. rewrite IH. reflexivity.
Qed.

(** The normal form of [d] joined with [p], written with slashes, is [d/p]
    with the separators of [p] written as slashes, when [d] is one kept
    component and [p] is a relative path in normal form. *)
Lemma join_normal (issep : ascii -> bool) (sep : ascii) (double_root : bool)
    (d p : string) :
  (forall c, issep c = true -> c = sep \/ c = "/"%char) ->
  issep sep = true ->
  has_sep issep d = false -> kept d = true ->
  normal_rel issep p = true ->
  replace_char sep "/" (gen_str issep sep double_root (gen_join issep sep d p))
  = d +:+ "/" +:+ replace_char sep "/" p.
Proof.
  intros Hclass Hsep Hd Hk Hp.
  unfold gen_join. rewrite (normal_rel_start _ _ Hp).
  assert (Hne : String.eqb d EmptyString = false).
  { unfold kept in Hk. apply andb_prop in Hk as [Hk _].
    apply negb_true_iff in Hk. exact Hk. }
  rewrite Hne, (ends_with_sep_app _ _ Hd). simpl orb. cbv iota.
  unfold gen_str.
  assert (Hstart : starts_with_sep issep (d +:+ String sep p) = false).
  { destruct d as [|x d]; [discriminate|].
    simpl in *. apply orb_false_elim in Hd as [Hx _]. exact Hx. }
  rewrite Hstart.
  rewrite (split_app_sep issep d sep p Hd Hsep).
  simpl List.filter. rewrite Hk.
  rewrite (filter_all kept _ Hp).
  pose proof (split_nonempty issep p) as Hsp.
  pose proof (replace_join_split issep sep p Hclass) as Hjoin.
  destruct (split issep p) as [|h t] eqn:Hsplit; [congruence|].
  change (join_with sep (d :: h :: t)) with (d +:+ String sep (join_with sep (h :: t))).
  change (EmptyString +:+ d +:+ String sep (join_with sep (h :: t)))
    with (d +:+ String sep (join_with sep (h :: t))).
  assert (Hbody : String.eqb (d +:+ String sep (join_with sep (h :: t))) EmptyString = false).
  { destruct d as [|x d]; [discriminate|]. reflexivity. }
  rewrite Hbody, replace_char_app, (replace_char_no_sep issep sep "/" d Hsep Hd).
  rewrite replace_char_cons, Ascii.eqb_refl, Hjoin. reflexivity.
Qed.

Lemma posix_join_normal (d p : string) :
  has_sep is_slash d = false -> kept d = true ->
  normal_rel is_slash p = true ->
  as_posix posix (path_join posix d p) = d +:+ "/" +:+ p.
Proof.
  intros Hd Hk Hp. unfold as_posix. simpl.
  rewrite (join_normal is_slash "/" true d p); [|
    intros c Hc; left; apply Ascii.eqb_eq; exact Hc | reflexivity | assumption..].
  rewrite replace_char_same. reflexivity.
Qed.

Lemma nt_join_normal (d p : string) :
  has_sep is_slash_or_backslash d = false -> kept d = true ->
  normal_rel is_slash_or_backslash p = true ->
  as_posix nt_plain (path_join nt_plain d p) = d +:+ "/" +:+ replace_char "\" "/" p.
Proof.
  intros Hd Hk Hp. unfold as_posix. simpl.
  apply (join_normal is_slash_or_backslash "\" false d p); try assumption.
  - intros c Hc. unfold is_slash_or_backslash in Hc.
    apply orb_prop in Hc as [Hc|Hc]; apply Ascii.eqb_eq in Hc; auto.
  - reflexivity.
Qed.

(** ** The date bucket *)

Lemma digit_cases (n : nat) :
  In (digit n) ["0"; "1"; "2"; "3"; "4"; "5"; "6"; "7"; "8"; "9"]%char.
Proof.
  unfold digit. pose proof (Nat.mod_upper_bound n 10 ltac:(lia)) as H.
  remember (n mod 10)%nat as k eqn:Hk. clear Hk.
  do 10 (destruct k as [|k]; [vm_compute; tauto|]).
  exfalso. lia.
Qed.

Lemma digit_is_digit (n : nat) : is_digit (digit n) = true.
Proof.
  pose proof (digit_cases n) as H. generalize dependent (digit n). intros c H.
  simpl in H.
  repeat (destruct H as [<-|H]; [reflexivity|]). contradiction.
Qed.

Lemma digit_no_sep (n : nat) :
  is_slash (digit n) = false /\ is_slash_or_backslash (digit n) = false /\
  digit n <> "."%char.
Proof.
  pose proof (digit_cases n) as H. generalize dependent (digit n). intros c H.
  simpl in H.
  repeat (destruct H as [<-|H];
          [split; [reflexivity|split; [reflexivity|discriminate]]|]).
  contradiction.
Qed.

(** The date string as its ten characters. *)
Lemma strftime_chars (d : date) :
  exists y1 y2 y3 y4 m1 m2 d1 d2,
    strftime_ymd d =
      String (digit y1) (String (digit y2) (String (digit y3) (String (digit y4)
        (String "-" (String (digit m1) (String (digit m2)
          (String "-" (String (digit d1) (String (digit d2) EmptyString))))))))).
Proof. unfold strftime_ymd. repeat eexists. Qed.

Lemma strftime_is_ymd (d : date) : is_ymd (strftime_ymd d) = true.
Proof.
  destruct (strftime_chars d) as (y1 & y2 & y3 & y4 & m1 & m2 & d1 & d2 & ->).
  unfold is_ymd, forallb. rewrite !digit_is_digit. reflexivity.
Qed.

Lemma strftime_no_sep (d : date) :
  has_sep is_slash (strftime_ymd d) = false /\
  has_sep is_slash_or_backslash (strftime_ymd d) = false.
Proof.
  destruct (strftime_chars d) as (y1 & y2 & y3 & y4 & m1 & m2 & d1 & d2 & ->).
  unfold has_sep.
  split.
  - repeat rewrite (proj1 (digit_no_sep _)). reflexivity.
  - repeat rewrite (proj1 (proj2 (digit_no_sep _))). reflexivity.
Qed.

Lemma strftime_kept (d : date) : kept (strftime_ymd d) = true.
Proof.
  destruct (strftime_chars d) as (y1 & y2 & y3 & y4 & m1 & m2 & d1 & d2 & ->).
  generalize (digit y1). intros c1.
  unfold kept. destruct c1 as [[] [] [] [] [] [] [] []]; reflexivity.
Qed.

(** ** The filesystem: what the calls keep and add *)

Section FsFacts.
Context {A : Type} (fl : flavour) (ref : refusal).

Lemma stat_no_nul (fs : gmap string (node A)) (p : string) (x : node A) :
  stat fl fs p = Some x -> has_nul p = false.
Proof. unfold stat. destruct (has_nul p); [discriminate|reflexivity]. Qed.

Lemma stat_lookup (fs : gmap string (node A)) (a : string) :
  has_nul a = false -> stat fl fs a = None -> fs !! a = None.
Proof. unfold stat. intros ->. destruct (is_root fl a); [discriminate|auto]. Qed.

Lemma stat_file (fs : gmap string (node A)) (p : string) (c : content A) :
  stat fl fs p = Some (File c) -> fs !! p = Some (File c).
Proof.
  unfold stat. destruct (has_nul p); [discriminate|].
  destruct (is_root fl p); [discriminate|auto].
Qed.

Lemma stat_keeps (fs fs' : gmap string (node A)) :
  (forall q x, fs !! q = Some x -> fs' !! q = Some x) ->
  forall a x, stat fl fs a = Some x -> stat fl fs' a = Some x.
Proof.
  intros Hkeep a x. unfold stat. destruct (has_nul a); [auto|].
  destruct (is_root fl a); [auto|apply Hkeep].
Qed.

Lemma stat_insert (fs : gmap string (node A)) (p : string) (c : content A) :
  has_nul p = false -> is_root fl p = false ->
  stat fl (<[p := File c]> fs) p = Some (File c).
Proof. intros Hn Hr. unfold stat. rewrite Hn, Hr. apply lookup_insert_eq. Qed.

Lemma stat_insert_ne (fs : gmap string (node A)) (p q : string) (x : node A) :
  q <> p -> stat fl (<[p := x]> fs) q = stat fl fs q.
Proof.
  intros Hne. unfold stat. destruct (has_nul q); [reflexivity|].
  destruct (is_root fl q); [reflexivity|]. apply lookup_insert_ne. congruence.
Qed.

Lemma stat_delete (fs : gmap string (node A)) (p : string) (c : content A) :
  stat fl fs p = Some (File c) -> stat fl (delete p fs) p = None.
Proof.
  unfold stat. destruct (has_nul p); [reflexivity|].
  destruct (is_root fl p); [discriminate|]. intros _. apply lookup_delete_eq.
Qed.

(** Entries that are there stay as they are. *)
Lemma mkdirs_keeps (l : list string) (fs fs' : gmap string (node A))
    (r : option failure) :
  mkdirs fl ref fs l = (r, fs') ->
  forall q x, fs !! q = Some x -> fs' !! q = Some x.
Proof.
  revert fs. induction l as [|a l IH]; intros fs Hrun q x Hq; simpl in Hrun.
  - injection Hrun as _ <-. exact Hq.
  - destruct (has_nul a) eqn:Hnul; [injection Hrun as _ <-; exact Hq|].
    destruct (stat fl fs a) as [[|c]|] eqn:Hst.
    + exact (IH _ Hrun q x Hq).
    + injection Hrun as _ <-. exact Hq.
    + destruct (ref (Mkdir a)).
      * injection Hrun as _ <-. exact Hq.
      * apply (IH _ Hrun q x). apply (stat_lookup _ _ Hnul) in Hst.
        rewrite lookup_insert_ne; [exact Hq|]. intros ->. congruence.
Qed.

(** What is new is a directory. *)
Lemma mkdirs_adds_dirs (l : list string) (fs fs' : gmap string (node A))
    (r : option failure) :
  mkdirs fl ref fs l = (r, fs') ->
  forall q x, fs' !! q = Some x -> fs !! q = Some x \/ (fs !! q = None /\ x = Dir).
Proof.
  revert fs. induction l as [|a l IH]; intros fs Hrun q x Hq; simpl in Hrun.
  - injection Hrun as _ <-. auto.
  - destruct (has_nul a) eqn:Hnul; [injection Hrun as _ <-; auto|].
    destruct (stat fl fs a) as [[|c]|] eqn:Hst.
    + exact (IH _ Hrun q x Hq).
    + injection Hrun as _ <-. auto.
    + destruct (ref (Mkdir a)).
      * injection Hrun as _ <-. auto.
      * apply (stat_lookup _ _ Hnul) in Hst.
        destruct (IH _ Hrun q x Hq) as [Hin|[Hin ->]].
        -- destruct (decide (a = q)) as [->|Hne].
           ++ rewrite lookup_insert_eq in Hin. injection Hin as <-. auto.
           ++ rewrite lookup_insert_ne in Hin by exact Hne. auto.
        -- destruct (decide (a = q)) as [->|Hne].
           ++ rewrite lookup_insert_eq in Hin. discriminate.
           ++ rewrite lookup_insert_ne in Hin by exact Hne. auto.
Qed.

(** After a walk that succeeds every directory of the walk is there. *)
Lemma mkdirs_ok_dirs (l : list string) (fs fs' : gmap string (node A)) :
  mkdirs fl ref fs l = (None, fs') ->
  Forall (fun a => stat fl fs' a = Some Dir) l.
Proof.
  revert fs. induction l as [|a l IH]; intros fs Hrun; [constructor|].
  simpl in Hrun. destruct (has_nul a) eqn:Hnul; [discriminate|].
  destruct (stat fl fs a) as [[|c]|] eqn:Hst.
  - constructor; [|exact (IH _ Hrun)].
    exact (stat_keeps _ _ (mkdirs_keeps _ _ _ _ Hrun) a Dir Hst).
  - discriminate.
  - destruct (ref (Mkdir a)); [discriminate|].
    constructor; [|exact (IH _ Hrun)].
    apply (stat_keeps _ _ (mkdirs_keeps _ _ _ _ Hrun) a Dir).
    unfold stat. rewrite Hnul.
    destruct (is_root fl a); [reflexivity|apply lookup_insert_eq].
Qed.

(** A walk over directories that are all there asks the system nothing and
    changes nothing. *)
Lemma mkdirs_again (l : list string) (fs : gmap string (node A)) :
  Forall (fun a => stat fl fs a = Some Dir) l ->
  mkdirs fl ref fs l = (None, fs).
Proof.
  induction 1 as [|a l Ha _ IH]; [reflexivity|].
  simpl. rewrite (stat_no_nul _ _ _ Ha), Ha. exact IH.
Qed.

Lemma ancestors_from_last (pre s : string) :
  In (pre +:+ s) (ancestors_from fl pre s).
Proof.
  revert pre. induction s as [|c s IH]; intros pre; simpl.
  - rewrite string_app_nil_r. left. reflexivity.
  - apply in_or_app. right.
    replace (pre +:+ String c s) with ((pre +:+ String c EmptyString) +:+ s).
    + apply IH.
    + rewrite string_app_assoc. reflexivity.
Qed.

(** makedirs that succeeds leaves a directory at its path. *)
Lemma makedirs_ok_dir (fs fs' : gmap string (node A)) (p : string) :
  makedirs fl ref fs p = (None, fs') -> stat fl fs' p = Some Dir.
Proof.
  unfold makedirs. destruct (String.eqb p EmptyString); [discriminate|].
  intros Hrun. apply mkdirs_ok_dirs in Hrun.
  rewrite Forall_forall in Hrun. apply Hrun. apply list_elem_of_In.
  exact (ancestors_from_last EmptyString p).
Qed.

Lemma makedirs_keeps (fs fs' : gmap string (node A)) (p : string)
    (r : option failure) :
  makedirs fl ref fs p = (r, fs') ->
  forall q x, fs !! q = Some x -> fs' !! q = Some x.
Proof.
  unfold makedirs. destruct (String.eqb p EmptyString).
  - intros [= _ <-]. auto.
  - apply mkdirs_keeps.
Qed.

Lemma makedirs_adds_dirs (fs fs' : gmap string (node A)) (p : string)
    (r : option failure) :
  makedirs fl ref fs p = (r, fs') ->
  forall q x, fs' !! q = Some x -> fs !! q = Some x \/ (fs !! q = None /\ x = Dir).
Proof.
  unfold makedirs. destruct (String.eqb p EmptyString).
  - intros [= _ <-]. auto.
  - apply mkdirs_adds_dirs.
Qed.

(** An open that fails leaves the store as it was; one that succeeds has
    put an empty file under a path that is not a directory. *)
Lemma open_wb_cases (fs fs' : gmap string (node A)) (p : string)
    (r : option failure) :
  open_wb fl ref fs p = (r, fs') ->
  (r <> None /\ fs' = fs) \/
  (r = None /\ fs' = <[p := File (Blob [])]> fs /\
   has_nul p = false /\ is_root fl p = false /\ fs !! p <> Some Dir /\
   (path_dirname fl p = EmptyString \/ stat fl fs (path_dirname fl p) = Some Dir) /\
   ref (match stat fl fs p with Some _ => Truncate p | None => Create p end) = None).
Proof.
  unfold open_wb. destruct (has_nul p) eqn:Hnul; [intros [= <- <-]; left; split; [discriminate|reflexivity]|].
  assert (Hroot : stat fl fs p <> Some Dir -> is_root fl p = false /\ fs !! p <> Some Dir).
  { unfold stat. rewrite Hnul. destruct (is_root fl p); [congruence|auto]. }
  destruct (stat fl fs p) as [[|c0]|] eqn:Hst; cbv beta iota zeta.
  1: intros [= <- <-]; left; split; [discriminate|reflexivity].
  all: destruct (Hroot ltac:(discriminate)) as [Hr Hnd].
  all: destruct (String.eqb_spec (path_dirname fl p) EmptyString) as [Hd|Hd].
  all: try (destruct (stat fl fs (path_dirname fl p)) as [[|c1]|] eqn:Hdir).
  all: try (intros [= <- <-]; left; split; [discriminate|reflexivity]).
  all: match goal with |- context [ref ?o] => destruct (ref o) eqn:Href end.
  all: intros [= <- <-].
  all: first [left; split; [discriminate|reflexivity]|right; repeat split; auto].
Qed.

(** An open succeeds on a file that is there, in a directory that is there,
    when the system does not refuse to rewrite it. *)
Lemma open_wb_again (fs : gmap string (node A)) (p : string) (c : content A) :
  stat fl fs p = Some (File c) ->
  path_dirname fl p <> EmptyString ->
  stat fl fs (path_dirname fl p) = Some Dir ->
  ref (Truncate p) = None ->
  open_wb fl ref fs p = (None, <[p := File (Blob [])]> fs).
Proof.
  intros Hp Hd Hdir Href. unfold open_wb.
  rewrite (stat_no_nul _ _ _ Hp), Hp. cbv beta iota zeta.
  apply String.eqb_neq in Hd. rewrite Hd, Hdir, Href. reflexivity.
Qed.

(** os.remove by its outcome. *)
Lemma remove_cases (fs : gmap string (node A)) (p : string) :
  remove fl ref fs p =
    if has_nul p then (Some EmbeddedNul, fs)
    else match stat fl fs p, ref (Unlink p) with
         | Some (File _), None => (None, delete p fs)
         | Some (File _), Some e => (Some (Os e), fs)
         | Some Dir, _ => (Some (Os IsADirectoryError), fs)
         | None, _ => (Some (Os FileNotFoundError), fs)
         end.
Proof.
  unfold remove. destruct (has_nul p); [reflexivity|].
  destruct (stat fl fs p) as [[|c]|]; try reflexivity.
Qed.

End FsFacts.

(** ** The read-style functions *)

Section ReadFacts.
Context `{P : Platform}.

(** The test [not os.path.exists(p) or not os.path.isfile(p)]. *)
Lemma missing_test (w : World) (p : string) :
  negb (bool_decide (is_Some (stat host (fs w) p)))
  || negb (match stat host (fs w) p with Some (File _) => true | _ => false end)
  = negb (regular_file w p).
Proof.
  unfold regular_file.
  destruct (stat host (fs w) p) as [[|c]|]; reflexivity.
Qed.

Lemma regular_file_stat (w : World) (p : string) :
  regular_file w p = true -> exists c, stat host (fs w) p = Some (File c).
Proof.
  unfold regular_file.
  destruct (stat host (fs w) p) as [[|c]|]; try discriminate. eauto.
Qed.

End ReadFacts.

Ltac run_checks :=
  unfold bind at 1, os_path_exists at 1; simpl;
  unfold bind at 1, os_path_isfile at 1; simpl;
  rewrite missing_test.

(** C3.  If one of filename, transaction_id and user_id is absent, or all are
    present and the resolved path is not a regular file on disk, upload
    returns absent and leaves the world as it was: no call is added to the
    trace of the storage client. *)
Theorem upload_absent_without_contact `{P : Platform}
    (filename transaction_id user_id : option string) (w : World) :
  filename = None \/ transaction_id = None \/ user_id = None \/
  (exists f, filename = Some f /\ regular_file w (resolve f) = false) ->
  upload_to_storage filename transaction_id user_id w = (Ok None, w) /\
  storage_calls (snd (upload_to_storage filename transaction_id user_id w))
  = storage_calls w.
Proof.
  intros H.
  assert (E : upload_to_storage filename transaction_id user_id w = (Ok None, w)).
  { destruct filename as [f|]; [|reflexivity].
    destruct transaction_id as [t|]; [|reflexivity].
    destruct user_id as [u|]; [|reflexivity].
    destruct H as [H|[H|[H|(f' & Hf & Hreg)]]]; try discriminate.
    injection Hf as <-.
    unfold upload_to_storage. run_checks.
    unfold resolve in Hreg. rewrite Hreg. reflexivity. }
  rewrite E. split; reflexivity.
Qed.

Lemma upload_absent_without_contact_witness :
  @regular_file posix_app (world0 posix_app) (@resolve posix_app "2024-03-22/t1.png")
  = false /\
  @upload_to_storage posix_app (Some "2024-03-22/t1.png") (Some "tx7") (Some "u1")
    (world0 posix_app) = (Ok None, world0 posix_app) /\
  @upload_to_storage posix_app (Some "2024-03-22/t1.png") None (Some "u1")
    (world0 posix_app) = (Ok None, world0 posix_app).
Proof.
  assert (Hmissing :
    @regular_file posix_app (world0 posix_app) (@resolve posix_app "2024-03-22/t1.png")
    = false) by reflexivity.
  split; [exact Hmissing|]. split.
  - apply (@upload_absent_without_contact posix_app).
    right; right; right. exists "2024-03-22/t1.png". split; [reflexivity|exact Hmissing].
  - apply (@upload_absent_without_contact posix_app). right; left; reflexivity.
Defined.

(** C5.  to_base64 and to_bytes return absent for an absent input, and
    return absent, without raising, when the resolved path is not there or
    is not a regular file. *)
Theorem read_absent_when_missing `{P : Platform} (w : World) :
  output_file_to_base64img None w = (Ok None, w) /\
  output_file_to_bytesimg None w = (Ok None, w) /\
  forall f, regular_file w (resolve f) = false ->
    output_file_to_base64img (Some f) w = (Ok None, w) /\
    output_file_to_bytesimg (Some f) w = (Ok None, w).
Proof.
  split; [reflexivity|]. split; [reflexivity|].
  intros f Hreg. unfold resolve in Hreg. split.
  - unfold output_file_to_base64img. run_checks. rewrite Hreg. reflexivity.
  - unfold output_file_to_bytesimg. run_checks. rewrite Hreg. reflexivity.
Qed.

Lemma read_absent_when_missing_witness :
  @regular_file posix_app (world0 posix_app) (@resolve posix_app "2024-03-22/never.png")
  = false /\
  @output_file_to_base64img posix_app (Some "2024-03-22/never.png") (world0 posix_app)
  = (Ok None, world0 posix_app) /\
  @output_file_to_bytesimg posix_app (Some "2024-03-22/never.png") (world0 posix_app)
  = (Ok None, world0 posix_app).
Proof.
  assert (Hmissing :
    @regular_file posix_app (world0 posix_app) (@resolve posix_app "2024-03-22/never.png")
    = false) by reflexivity.
  split; [exact Hmissing|].
  destruct (@read_absent_when_missing posix_app (world0 posix_app)) as (_ & _ & Hread).
  exact (Hread "2024-03-22/never.png" Hmissing).
Defined.

(** ** serve_url *)

Lemma get_replace_char (old new : ascii) (s : string) (i : nat) :
  String.get i (replace_char old new s)
  = option_map (fun c => if Ascii.eqb c old then new else c) (String.get i s).
Proof.
  revert i. induction s as [|c s IH]; intros i; simpl; [reflexivity|].
  destruct i; simpl; [reflexivity|apply IH].
Qed.

Lemma occurs_replace_char (old new : ascii) (s : string) :
  old <> new -> occurs old (replace_char old new s) = false.
Proof.
  intros Hne. induction s as [|c s IH]; simpl; [reflexivity|].
  rewrite IH, orb_false_r.
  destruct (Ascii.eqb_spec c old) as [->|Hc].
  - apply Ascii.eqb_neq. congruence.
  - apply Ascii.eqb_neq. exact Hc.
Qed.

Lemma length_replace_char (old new : ascii) (s : string) :
  String.length (replace_char old new s) = String.length s.
Proof. induction s; simpl; congruence. Qed.

(** C6.  serve_url is string composition: absent for an absent input, and
    for a string the static-server base followed by the input with every
    backslash turned into a forward slash, character by character.  The
    function takes no world, so it reads no file and calls no client.
    serve_url of a\b.png is the base followed by a/b.png. *)
Theorem serve_url_composition :
  get_file_serve_url None = None /\
  (forall s, exists t,
     get_file_serve_url (Some s) = Some (STATIC_SERVER_BASE +:+ t) /\
     String.length t = String.length s /\
     occurs "\" t = false /\
     forall i, String.get i t
               = option_map (fun c => if Ascii.eqb c "\" then "/"%char else c)
                   (String.get i s)) /\
  get_file_serve_url (Some "a\b.png") = Some "http://127.0.0.1:8888/files/a/b.png" /\
  endswith "http://127.0.0.1:8888/files/a/b.png" "files/a/b.png" = true.
Proof.
  split; [reflexivity|]. split; [|split; reflexivity].
  intros s. exists (replace_char "\" "/" s).
  split; [reflexivity|]. split; [apply length_replace_char|].
  split; [apply occurs_replace_char; discriminate|].
  intros i. apply get_replace_char.
Qed.

(** ** base64 text *)

Lemma sextet_ascii (n : N) : (Byte.to_N (Base64.sextet n) <? 128)%N = true.
Proof.
  unfold Base64.sextet.
  assert (H : Forall (fun b => (Byte.to_N b <? 128)%N = true)
                (Base64.pad :: Base64.alphabet)).
  { repeat constructor. }
  rewrite Forall_forall in H. apply H. apply list_elem_of_In.
  destruct (nth_in_or_default (N.to_nat (N.land n 63)) Base64.alphabet Base64.pad)
    as [Hin| ->].
  - right. exact Hin.
  - left. reflexivity.
Qed.

Lemma decode_utf8_cons (b : Byte.byte) (l : list Byte.byte) :
  (Byte.to_N b <? 128)%N = true ->
  is_Some (Base64.decode_utf8 l) -> is_Some (Base64.decode_utf8 (b :: l)).
Proof.
  intros Hb [s Hs]. simpl. rewrite Hb, Hs. eauto.
Qed.

(** The output of b64encode is 7-bit: decoding it never fails. *)
Lemma b64encode_decodes (data : list Byte.byte) :
  is_Some (Base64.decode_utf8 (Base64.b64encode data)).
Proof.
  assert (Hpad : (Byte.to_N Base64.pad <? 128)%N = true) by reflexivity.
  assert (Hnil : is_Some (Base64.decode_utf8 [])) by (simpl; eauto).
  assert (H : forall n l, (length l <= n)%nat ->
                is_Some (Base64.decode_utf8 (Base64.b64encode l))).
  { induction n as [|n IH]; intros l Hl.
    - destruct l; [exact Hnil|simpl in Hl; lia].
    - destruct l as [|a [|b [|c rest]]].
      + exact Hnil.
      + cbn [Base64.b64encode].
        repeat (apply decode_utf8_cons; [first [apply sextet_ascii|exact Hpad]|]).
        exact Hnil.
      + cbn [Base64.b64encode].
        repeat (apply decode_utf8_cons; [first [apply sextet_ascii|exact Hpad]|]).
        exact Hnil.
      + cbn [Base64.b64encode].
        repeat (apply decode_utf8_cons; [apply sextet_ascii|]).
        apply IH. simpl in Hl. lia. }
  apply (H (length data)). lia.
Qed.

(** C9.  to_base64 and to_bytes agree on every input and every world: one
    is absent exactly when the other is, one raises exactly when the other
    does (with the same exception), and when to_bytes returns bytes,
    to_base64 returns the UTF-8 decoding of their standard base64 encoding;
    the bytes are Pillow's PNG re-encoding of the one stored file.  Neither
    changes the world. *)
Theorem base64_agrees_with_bytes `{P : Platform}
    (filename : option string) (w : World) :
  match output_file_to_bytesimg filename w, output_file_to_base64img filename w with
  | (Ok None, w1), (Ok None, w2) => w1 = w /\ w2 = w
  | (Ok (Some byte_data), w1), (Ok (Some text), w2) =>
      Base64.decode_utf8 (Base64.b64encode byte_data) = Some text /\
      (exists f c, filename = Some f /\
                   stat host (fs w) (resolve f) = Some (File c) /\
                   pil_reencode_png c = Ok byte_data) /\
      w1 = w /\ w2 = w
  | (Raise e1, w1), (Raise e2, w2) => e1 = e2 /\ w1 = w /\ w2 = w
  | _, _ => False
  end.
Proof.
  destruct filename as [f|]; [|simpl; auto].
  unfold output_file_to_bytesimg, output_file_to_base64img.
  unfold bind, os_path_exists, os_path_isfile. rewrite !missing_test.
  destruct (regular_file w (path_join host output_dir f)) eqn:Hreg; simpl; [|auto].
  apply regular_file_stat in Hreg as [c Hc].
  unfold Image_open_save_png, lift, ret.
  rewrite (stat_no_nul _ _ _ _ Hc), Hc.
  destruct (pil_reencode_png c) as [byte_data|e] eqn:Hpng; [|auto].
  destruct (b64encode_decodes byte_data) as [text Htext]. rewrite Htext.
  split; [reflexivity|]. split; [|auto].
  exists f, c. auto.
Qed.

(** ** delete *)

Section DeleteFacts.
Context `{P : Platform}.

(** Lines 83-90, step by step. *)
Lemma delete_run (filename : string) (w : World) :
  delete_output_file filename w =
    let p := resolve filename in
    let warn := (WARN, "[Fooocus API] " +:+ filename +:+ " not exists or is not a file") in
    let failed := (ERROR, "[Fooocus API] Delete output file failed: " +:+ filename) in
    if has_nul p then (Raise ValueError, with_fs (with_log w warn) (fs w))
    else
      match stat host (fs w) p with
      | Some (File _) =>
          match refuses w (Unlink p) with
          | Some _ => (Ok tt, with_log (with_fs w (fs w)) failed)
          | None =>
              (Ok tt, with_log (with_fs w (delete p (fs w)))
                        (INFO, "[Fooocus API] Delete output file: " +:+ filename))
          end
      | _ => (Ok tt, with_log (with_fs (with_log w warn) (fs w)) failed)
      end.
Proof.
  cbv zeta. unfold delete_output_file, resolve. run_checks.
  set (p := path_join host output_dir filename).
  unfold regular_file.
  unfold bind, try_except_OSError, os_remove, logger_std, ret, os_result.
  destruct (has_nul p) eqn:Hnul.
  - unfold stat. rewrite Hnul. simpl. rewrite remove_cases, Hnul. reflexivity.
  - destruct (stat host (fs w) p) as [[|c]|] eqn:Hst; simpl;
      rewrite remove_cases, Hnul, Hst; try reflexivity.
    destruct (refuses w (Unlink p)); reflexivity.
Qed.

(** Lines 83-90, by what they leave behind when the path has no NUL. *)
Lemma delete_effect (filename : string) (w : World) :
  let p := resolve filename in
  let w' := snd (delete_output_file filename w) in
  has_nul p = false ->
  fst (delete_output_file filename w) = Ok tt /\
  fs w' = (if regular_file w p && negb (bool_decide (is_Some (refuses w (Unlink p))))
           then delete p (fs w) else fs w) /\
  log w' = log w ++
    (if regular_file w p then
       if bool_decide (is_Some (refuses w (Unlink p)))
       then [(ERROR, "[Fooocus API] Delete output file failed: " +:+ filename)]
       else [(INFO, "[Fooocus API] Delete output file: " +:+ filename)]
     else [(WARN, "[Fooocus API] " +:+ filename +:+ " not exists or is not a file");
           (ERROR, "[Fooocus API] Delete output file failed: " +:+ filename)]) /\
  refuses w' = refuses w /\ now w' = now w /\ environ w' = environ w /\
  storage_calls w' = storage_calls w.
Proof.
  cbv zeta. intros Hnul. rewrite delete_run. cbv zeta. rewrite Hnul.
  unfold regular_file.
  destruct (stat host (fs w) (resolve filename)) as [[|c]|]; simpl.
  - rewrite <- app_assoc. repeat split; reflexivity.
  - destruct (refuses w (Unlink (resolve filename))) as [e|]; simpl.
    + repeat split; reflexivity.
    + repeat split; reflexivity.
  - rewrite <- app_assoc. repeat split; reflexivity.
Qed.

(** Whatever delete does, it adds nothing to the filesystem and changes no
    entry, it only appends to the log, and it leaves the rest alone. *)
Lemma delete_frame (filename : string) (w : World) :
  let w' := snd (delete_output_file filename w) in
  (forall q x, fs w' !! q = Some x -> fs w !! q = Some x) /\
  (exists entries, log w' = log w ++ entries) /\
  refuses w' = refuses w /\ now w' = now w /\ environ w' = environ w /\
  storage_calls w' = storage_calls w.
Proof.
  cbv zeta. rewrite delete_run. cbv zeta.
  destruct (has_nul (resolve filename)).
  - simpl. repeat split; eauto.
  - destruct (stat host (fs w) (resolve filename)) as [[|c]|]; simpl.
    + repeat split; auto. rewrite <- app_assoc. eauto.
    + destruct (refuses w (Unlink (resolve filename))); simpl; repeat split; eauto.
      intros q x Hq. apply lookup_delete_Some in Hq as [_ Hq]. exact Hq.
    + repeat split; auto. rewrite <- app_assoc. eauto.
Qed.

End DeleteFacts.

(** C4, as stated, fails for a name with a NUL character: os.path.exists and
    os.path.isfile answer False, the warning is logged, and os.remove raises
    ValueError, which [except OSError] does not catch. *)
Lemma delete_nul_name_raises :
  fst (@delete_output_file posix_app name_with_nul (world0 posix_app)) = Raise ValueError /\
  log (snd (@delete_output_file posix_app name_with_nul (world0 posix_app)))
  = [(WARN, "[Fooocus API] " +:+ name_with_nul +:+ " not exists or is not a file")] /\
  fs (snd (@delete_output_file posix_app name_with_nul (world0 posix_app)))
  = fs (world0 posix_app) /\
  ~ (exists w',
       @delete_output_file posix_app name_with_nul (world0 posix_app) = (Ok tt, w')).
Proof.
  split; [vm_compute; reflexivity|]. split; [vm_compute; reflexivity|].
  split; [vm_compute; reflexivity|].
  intros [w' H]. apply (f_equal fst) in H. vm_compute in H. discriminate H.
Qed.

(** C4, amended.  For a filename whose resolved path holds no NUL character,
    delete returns normally in every world.  When the resolved path is not a
    regular file (never saved, or a directory) it logs a warning, the removal
    fails and an error is logged; the filesystem is as before.  When the
    operating system refuses to remove an existing file the error is logged,
    not raised.  Otherwise the file is removed, nothing else appears or
    changes, and the removal is logged.  For a resolved path with a NUL
    character the warning is logged and os.remove raises ValueError, which
    leaves the function. *)
Theorem delete_returns_unless_nul `{P : Platform} (filename : string) (w : World) :
  (has_nul (resolve filename) = false ->
   exists w',
     delete_output_file filename w = (Ok tt, w') /\
     (regular_file w (resolve filename) = false ->
        fs w' = fs w /\
        log w' = log w ++
          [(WARN, "[Fooocus API] " +:+ filename +:+ " not exists or is not a file");
           (ERROR, "[Fooocus API] Delete output file failed: " +:+ filename)]) /\
     (regular_file w (resolve filename) = true ->
      is_Some (refuses w (Unlink (resolve filename))) ->
        fs w' = fs w /\
        log w' = log w ++
          [(ERROR, "[Fooocus API] Delete output file failed: " +:+ filename)]) /\
     (regular_file w (resolve filename) = true ->
      refuses w (Unlink (resolve filename)) = None ->
        stat host (fs w') (resolve filename) = None /\
        (forall q x, fs w' !! q = Some x -> fs w !! q = Some x) /\
        log w' = log w ++
          [(INFO, "[Fooocus API] Delete output file: " +:+ filename)])) /\
  (has_nul (resolve filename) = true ->
   exists w',
     delete_output_file filename w = (Raise ValueError, w') /\
     fs w' = fs w /\
     log w' = log w ++
       [(WARN, "[Fooocus API] " +:+ filename +:+ " not exists or is not a file")]).
Proof.
  split; intros Hnul.
  - destruct (delete_effect filename w Hnul) as (Hret & Hfs & Hlog & _).
    destruct (delete_frame filename w) as (Hsub & _).
    cbv zeta in *.
    destruct (delete_output_file filename w) as [r w'] eqn:Hrun.
    simpl in *. subst r. exists w'. split; [reflexivity|].
    split; [|split].
    + intros Hreg. rewrite Hreg in Hfs, Hlog. auto.
    + intros Hreg Href. rewrite Hreg, (bool_decide_eq_true_2 _ Href) in Hfs, Hlog. auto.
    + intros Hreg Href.
      assert (Hno : ~ is_Some (refuses w (Unlink (resolve filename)))).
      { rewrite Href. intros [? ?]. discriminate. }
      rewrite Hreg, (bool_decide_eq_false_2 _ Hno) in Hfs, Hlog. simpl in Hfs.
      split; [|split; [exact Hsub|exact Hlog]].
      apply regular_file_stat in Hreg as [c Hc].
      rewrite Hfs. exact (stat_delete _ _ _ _ Hc).
  - rewrite delete_run. cbv zeta. rewrite Hnul.
    eexists. split; [reflexivity|]. split; reflexivity.
Qed.

Lemma delete_returns_unless_nul_witness :
  (has_nul (@resolve posix_app "2024-03-22/never.png") = false /\
   @regular_file posix_app (world0 posix_app) (@resolve posix_app "2024-03-22/never.png")
   = false /\
   exists w',
     @delete_output_file posix_app "2024-03-22/never.png" (world0 posix_app) = (Ok tt, w') /\
     fs w' = fs (world0 posix_app) /\
     log w' =
       [(WARN, "[Fooocus API] 2024-03-22/never.png not exists or is not a file");
        (ERROR, "[Fooocus API] Delete output file failed: 2024-03-22/never.png")]) /\
  (has_nul (@resolve posix_app name_with_nul) = true /\
   exists w',
     @delete_output_file posix_app name_with_nul (world0 posix_app)
     = (Raise ValueError, w')).
Proof.
  assert (Hplain : has_nul (@resolve posix_app "2024-03-22/never.png") = false)
    by reflexivity.
  assert (Hmissing :
    @regular_file posix_app (world0 posix_app) (@resolve posix_app "2024-03-22/never.png")
    = false) by reflexivity.
  assert (Hnul : has_nul (@resolve posix_app name_with_nul) = true) by reflexivity.
  split.
  - split; [exact Hplain|]. split; [exact Hmissing|].
    destruct (@delete_returns_unless_nul posix_app "2024-03-22/never.png" (world0 posix_app))
      as [Hret _].
    destruct (Hret Hplain) as (w' & Hrun & Hwarn & _).
    exists w'. split; [exact Hrun|]. exact (Hwarn Hmissing).
  - split; [exact Hnul|].
    destruct (@delete_returns_unless_nul posix_app name_with_nul (world0 posix_app))
      as [_ Hraise].
    destruct (Hraise Hnul) as (w' & Hrun & _).
    exists w'. exact Hrun.
Defined.

(** ** upload *)

(** C7.  With the three inputs present and the resolved path a regular file,
    upload makes one upload call on the client of the bucket named by
    SUPABASE_BUCKET_NAME: the file is the resolved path, the key is
    <user_id>/<transaction_id>/<relative_path>, and the content type is
    image/jpeg whatever the file holds.  When the client accepts the upload,
    the public URL of that key in that bucket is asked for and returned; when
    it fails, its exception is raised. *)
Theorem upload_stores_under_key `{P : Platform}
    (filename transaction_id user_id : string) (w : World) :
  regular_file w (resolve filename) = true ->
  let bucket := environ w !! "SUPABASE_BUCKET_NAME" in
  let key := user_id +:+ "/" +:+ transaction_id +:+ "/" +:+ filename in
  let call := Upload bucket (resolve filename) key [("content-type", "image/jpeg")] in
  upload_to_storage (Some filename) (Some transaction_id) (Some user_id) w =
    match storage_fault (storage_calls w) call with
    | None =>
        (Ok (Some (public_url bucket key)),
         with_call (with_call w call) (GetPublicUrl bucket key))
    | Some e => (Raise e, with_call w call)
    end.
Proof.
  intros Hreg. unfold resolve in *. simpl.
  unfold upload_to_storage. run_checks. rewrite Hreg. simpl.
  unfold bind, os_environ_get, storage_upload, storage_get_public_url, ret.
  destruct (storage_fault _ _); reflexivity.
Qed.

Lemma upload_stores_under_key_witness :
  let w := snd (@save_output_file posix_app black10 (Some meta_v1) "t1" "png"
                  (world0 posix_app)) in
  @regular_file posix_app w (@resolve posix_app "2024-03-22/t1.png") = true /\
  @upload_to_storage posix_app (Some "2024-03-22/t1.png") (Some "tx7") (Some "u1") w
  = (Ok (Some "https://example.supabase.co/storage/v1/object/public/images/u1/tx7/2024-03-22/t1.png"),
     with_call
       (with_call w
          (Upload (Some "images") "/app/outputs/files/2024-03-22/t1.png"
             "u1/tx7/2024-03-22/t1.png" [("content-type", "image/jpeg")]))
       (GetPublicUrl (Some "images") "u1/tx7/2024-03-22/t1.png")).
Proof.
  intros w.
  assert (Hfile :
    @regular_file posix_app w (@resolve posix_app "2024-03-22/t1.png") = true)
    by (vm_compute; reflexivity).
  split; [exact Hfile|].
  rewrite (@upload_stores_under_key posix_app "2024-03-22/t1.png" "tx7" "u1" w Hfile).
  reflexivity.
Defined.

(** ** save: the metadata block *)

Section SaveFacts.
Context `{P : Platform}.

(** Lines 68-74, step by step. *)
Lemma write_out_run (img : ndarray) (file_path format : string)
    (meta : option PngInfo) (filename : string) (w : World) :
  write_out img file_path format meta filename w =
    match makedirs host (refuses w) (fs w) (path_dirname host file_path) with
    | (Some f, fs1) => (Raise (raised f), with_fs w fs1)
    | (None, fs1) =>
        if pil_accepts img format then
          match open_wb host (refuses w) fs1 file_path with
          | (Some f, fs2) => (Raise (raised f), with_fs w fs2)
          | (None, fs2) =>
              if pil_encodes img format then
                (Ok (as_posix host filename),
                 with_fs w
                   (<[file_path :=
                        File (Picture {| st_format := format; st_image := img;
                                         st_pnginfo := meta; st_optimize := true |})]> fs2))
              else
                (Raise PillowError,
                 with_fs w
                   (if negb (bool_decide (is_Some (stat host fs1 file_path)))
                       && pil_cleans_up
                       && negb (bool_decide (is_Some (refuses w (Unlink file_path))))
                    then delete file_path fs2 else fs2))
          end
        else (Raise PillowError, with_fs w fs1)
    end.
Proof.
  unfold write_out, bind, os_makedirs, os_result, Image_fromarray_save, ret.
  destruct (makedirs _ _ _ _) as [[f|] fs1]; [reflexivity|].
  simpl. destruct (pil_accepts img format); [|reflexivity].
  destruct (open_wb _ _ _ _) as [[f|] fs2]; [reflexivity|].
  destruct (pil_encodes img format); reflexivity.
Qed.

(** [save_output_file], step by step. *)
Lemma save_run (img : ndarray) (image_meta : option dict)
    (image_name extension : string) (w : World) :
  save_output_file img image_meta image_name extension w =
    match build_meta (effective_extension extension)
            (match image_meta with None => [] | Some d => d end) with
    | Raise e => (Raise e, w)
    | Ok meta =>
        write_out img (save_file_path (now w) image_name extension)
          (effective_extension extension) meta
          (save_filename (now w) image_name extension) w
    end.
Proof.
  unfold save_output_file, build_meta, effective_extension, save_file_path,
    save_filename, write_out.
  unfold bind at 1, datetime_now at 1. cbv zeta.
  set (fmt := if negb (str_in extension ["png"; "jpeg"; "webp"]) then "png" else extension).
  set (m := match image_meta with None => [] | Some d => d end).
  unfold bind at 1.
  destruct (String.eqb fmt "png" && nonempty m) eqn:Hpng.
  - unfold bind at 1, lift at 1.
    destruct (Json.dumps json_limits (VDict m)) as [parameters|e]; [|reflexivity].
    unfold bind at 1, lift at 1, add_text at 1.
    unfold bind at 1, lift at 1, getitem.
    destruct (lookup_item m "metadata_scheme") as [[]|]; reflexivity.
  - reflexivity.
Qed.


(** Lines 68-74 change nothing but the filesystem, remove nothing that was
    there, and turn no directory into a file. *)
Lemma write_out_frame (img : ndarray) (file_path format : string)
    (meta : option PngInfo) (filename : string) (w : World) :
  let w' := snd (write_out img file_path format meta filename w) in
  refuses w' = refuses w /\ now w' = now w /\ environ w' = environ w /\
  log w' = log w /\ storage_calls w' = storage_calls w /\
  (forall q, fs w !! q = Some Dir -> fs w' !! q = Some Dir) /\
  (forall q c, fs w !! q = Some (File c) -> exists c', fs w' !! q = Some (File c')).
Proof.
  cbv zeta. rewrite write_out_run.
  destruct (makedirs host (refuses w) (fs w) (path_dirname host file_path))
    as [r fs1] eqn:Hmk.
  pose proof (makedirs_keeps _ _ _ _ _ _ Hmk) as Hkeep.
  assert (Hdone : forall fs2 : gmap string (node ndarray),
            (forall q x, fs1 !! q = Some x ->
               exists x', fs2 !! q = Some x' /\ (x = Dir -> x' = Dir) /\
                          (forall c, x = File c -> exists c', x' = File c')) ->
            (forall q, fs w !! q = Some Dir -> fs2 !! q = Some Dir) /\
            (forall q c, fs w !! q = Some (File c) -> exists c', fs2 !! q = Some (File c'))).
  { intros fs2 H. split.
    - intros q Hq. destruct (H q Dir (Hkeep _ _ Hq)) as (x' & Hx & Hd & _).
      rewrite Hx, (Hd eq_refl). reflexivity.
    - intros q c Hq. destruct (H q _ (Hkeep _ _ Hq)) as (x' & Hx & _ & Hf).
      destruct (Hf c eq_refl) as [c' ->]. eauto. }
  assert (Hsame : forall q (x : node ndarray), fs1 !! q = Some x ->
            exists x', fs1 !! q = Some x' /\ (x = Dir -> x' = Dir) /\
                       (forall c, x = File c -> exists c', x' = File c')).
  { intros q x Hq. exists x. split; [exact Hq|]. split; [auto|]. intros c ->. eauto. }
  destruct r as [f|]; [simpl; repeat split; try reflexivity; apply (Hdone fs1 Hsame)|].
  destruct (pil_accepts img format);
    [|simpl; repeat split; try reflexivity; apply (Hdone fs1 Hsame)].
  destruct (open_wb host (refuses w) fs1 file_path) as [r2 fs2] eqn:Hopen.
  apply open_wb_cases in Hopen
    as [[Hr ->]|(-> & -> & Hnul & Hroot & Hnd & _)].
  { destruct r2 as [f|]; [|congruence].
    simpl. repeat split; try reflexivity; apply (Hdone fs1 Hsame). }
  assert (Hput : forall (c : content ndarray) q (x : node ndarray),
            fs1 !! q = Some x ->
            exists x', <[file_path := File c]> fs1 !! q = Some x' /\
                       (x = Dir -> x' = Dir) /\
                       (forall c0, x = File c0 -> exists c', x' = File c')).
  { intros c q x Hq. destruct (decide (q = file_path)) as [->|Hne].
    - rewrite lookup_insert_eq. eexists. split; [reflexivity|]. split.
      + intros ->. congruence.
      + intros c0 _. eauto.
    - rewrite lookup_insert_ne by congruence. apply Hsame. exact Hq. }
  destruct (pil_encodes img format).
  - simpl. repeat split; try reflexivity; apply Hdone.
    all: intros q x Hq; rewrite insert_insert_eq; apply Hput; exact Hq.
  - destruct (negb (bool_decide (is_Some (stat host fs1 file_path)))
              && pil_cleans_up
              && negb (bool_decide (is_Some (refuses w (Unlink file_path))))) eqn:Hrm.
    + apply andb_prop in Hrm as [Hrm _]. apply andb_prop in Hrm as [Hnew _].
      assert (Habsent : fs1 !! file_path = None).
      { apply negb_true_iff, bool_decide_eq_false_1 in Hnew.
        unfold stat in Hnew. rewrite Hnul, Hroot in Hnew.
        destruct (fs1 !! file_path); [exfalso; apply Hnew; eauto|reflexivity]. }
      simpl. repeat split; try reflexivity; apply Hdone.
      all: intros q x Hq; rewrite delete_insert_id by exact Habsent;
        apply Hsame; exact Hq.
    + simpl. repeat split; try reflexivity; apply Hdone.
      all: intros q x Hq; apply Hput; exact Hq.
Qed.

(** What a returning [write_out] went through. *)
Lemma write_out_ok (img : ndarray) (file_path format : string)
    (meta : option PngInfo) (filename : string) (w w' : World) (rel : string) :
  write_out img file_path format meta filename w = (Ok rel, w') ->
  exists fs1,
    makedirs host (refuses w) (fs w) (path_dirname host file_path) = (None, fs1) /\
    pil_accepts img format = true /\ pil_encodes img format = true /\
    has_nul file_path = false /\ is_root host file_path = false /\
    fs1 !! file_path <> Some Dir /\
    fs w' = <[file_path :=
                File (Picture {| st_format := format; st_image := img;
                                 st_pnginfo := meta; st_optimize := true |})]> fs1 /\
    w' = with_fs w (fs w') /\
    rel = as_posix host filename.
Proof.
  rewrite write_out_run.
  destruct (makedirs _ _ _ _) as [[f|] fs1] eqn:Hmk; [discriminate|].
  destruct (pil_accepts img format) eqn:Hpil; [|discriminate].
  destruct (open_wb _ _ _ _) as [[f|] fs2] eqn:Hopen; [discriminate|].
  destruct (pil_encodes img format) eqn:Henc; [|discriminate].
  apply open_wb_cases in Hopen as [[Hr _]|(_ & -> & Hnul & Hroot & Hnd & _)];
    [congruence|].
  intros [= <- <-]. exists fs1. simpl. rewrite insert_insert_eq.
  repeat split; auto.
Qed.

(** What a save that returns has done. *)
Lemma save_ok (img : ndarray) (image_meta : option dict)
    (image_name extension : string) (w w' : World) (rel : string) :
  save_output_file img image_meta image_name extension w = (Ok rel, w') ->
  exists meta,
    build_meta (effective_extension extension)
      (match image_meta with None => [] | Some d => d end) = Ok meta /\
    rel = as_posix host (save_filename (now w) image_name extension) /\
    stat host (fs w') (save_file_path (now w) image_name extension)
    = Some (File (Picture {| st_format := effective_extension extension;
                             st_image := img; st_pnginfo := meta;
                             st_optimize := true |})).
Proof.
  rewrite save_run.
  destruct (build_meta _ _) as [meta|e]; [|discriminate].
  intros Hout.
  apply write_out_ok in Hout as (fs1 & _ & _ & _ & Hnul & Hroot & _ & Hfs & _ & Hrel).
  exists meta. split; [reflexivity|]. split; [exact Hrel|].
  rewrite Hfs. apply stat_insert; assumption.
Qed.



End SaveFacts.




(** ** save: the metadata of a PNG file *)




(** ** save: the name of the file *)

(** C1.  The code at an unsupported extension: save(img, None, "t1", "jpg")
    on 2024-03-22 returns 2024-03-22/t1.jpg and writes PNG data to
    <output_dir>/2024-03-22/t1.jpg; there is no t1.png.  The check of lines
    56-57 comes after lines 53-54 have built the name, so the coercion
    reaches the encoder and not the file name. *)
Theorem save_unsupported_extension_keeps_name :
  let r := @save_output_file posix_app black10 None "t1" "jpg" (world0 posix_app) in
  fst r = Ok "2024-03-22/t1.jpg" /\
  (exists f,
     fs (snd r) !! "/app/outputs/files/2024-03-22/t1.jpg" = Some (File (Picture f)) /\
     st_format f = "png") /\
  fs (snd r) !! "/app/outputs/files/2024-03-22/t1.png" = None /\
  endswith "2024-03-22/t1.jpg" ".png" = false.
Proof.
  cbv zeta. split; [vm_compute; reflexivity|].
  split; [|split; vm_compute; reflexivity].
  eexists. split; [vm_compute; reflexivity|reflexivity].
Qed.

(** Whatever the extension, a save that returns has written a file of the
    format the extension was coerced to, under a name that carries the
    extension as it was passed. *)
Lemma save_format_and_name `{P : Platform} (img : ndarray) (image_meta : option dict)
    (image_name extension : string) (w w' : World) (rel : string) :
  save_output_file img image_meta image_name extension w = (Ok rel, w') ->
  rel = as_posix host
          (path_join host (strftime_ymd (now w)) (image_name +:+ "." +:+ extension)) /\
  exists f,
    stat host (fs w')
      (path_join host output_dir
         (path_join host (strftime_ymd (now w)) (image_name +:+ "." +:+ extension)))
    = Some (File (Picture f)) /\
    st_format f = effective_extension extension /\
    st_image f = img.
Proof.
  intros Hsave. apply save_ok in Hsave as (meta & _ & Hrel & Hst).
  split; [exact Hrel|]. eexists. split; [exact Hst|]. split; reflexivity.
Qed.

(** C8, as stated, fails for an absolute name: os.path.join drops the date
    bucket, the returned path is /tmp/x.png and not 2024-03-22//tmp/x.png,
    and it does not start with the date bucket. *)
Lemma save_absolute_name_leaves_bucket :
  fst (@save_output_file posix_app black10 None "/tmp/x" "png" (world0 posix_app))
  = Ok "/tmp/x.png" /\
  "/tmp/x.png" <> "2024-03-22" +:+ "/" +:+ "/tmp/x" +:+ "." +:+ "png" /\
  String.prefix "2024-03-22/" "/tmp/x.png" = false /\
  ~ (forall rel w',
       @save_output_file posix_app black10 None "/tmp/x" "png" (world0 posix_app)
       = (Ok rel, w') ->
       occurs "\" rel = false /\
       rel = strftime_ymd (now (world0 posix_app)) +:+ "/" +:+ "/tmp/x" +:+ "." +:+ "png").
Proof.
  split; [vm_compute; reflexivity|].
  split; [discriminate|]. split; [reflexivity|].
  intros H.
  destruct (H "/tmp/x.png"
              (snd (@save_output_file posix_app black10 None "/tmp/x" "png"
                      (world0 posix_app)))) as [_ Heq].
  - vm_compute. reflexivity.
  - vm_compute in Heq. discriminate Heq.
Qed.

(** C8, amended.  A save that returns gives
    Path(os.path.join(<date>, <name>.<extension>)).as_posix(), where <date>
    has the shape YYYY-MM-DD.  On a host whose separator is not the forward
    slash the returned path does not contain that separator.  For a supported
    extension and a name such that <name>.<extension> is a relative path in
    normal form for the host, the returned path is <date>/<name>.<extension>
    on a POSIX host, and the same with the backslashes of the name written
    as slashes on a backslash host (where a colon could name a drive, which
    the backslash convention modelled here leaves out). *)
Theorem save_returns_posix_path `{P : Platform} (img : ndarray)
    (image_meta : option dict) (image_name extension : string)
    (w w' : World) (rel : string) :
  save_output_file img image_meta image_name extension w = (Ok rel, w') ->
  rel = as_posix host
          (path_join host (strftime_ymd (now w)) (image_name +:+ "." +:+ extension)) /\
  is_ymd (strftime_ymd (now w)) = true /\
  (sep host <> "/"%char -> occurs (sep host) rel = false) /\
  (host = posix ->
   str_in extension ["png"; "jpeg"; "webp"] = true ->
   normal_rel is_slash (image_name +:+ "." +:+ extension) = true ->
   rel = strftime_ymd (now w) +:+ "/" +:+ image_name +:+ "." +:+ extension) /\
  (host = nt_plain ->
   str_in extension ["png"; "jpeg"; "webp"] = true ->
   normal_rel is_slash_or_backslash (image_name +:+ "." +:+ extension) = true ->
   occurs ":" (image_name +:+ "." +:+ extension) = false ->
   rel = strftime_ymd (now w) +:+ "/"
         +:+ replace_char "\" "/" (image_name +:+ "." +:+ extension)).
Proof.
  intros Hsave. apply save_format_and_name in Hsave as [Hrel _].
  split; [exact Hrel|]. split; [apply strftime_is_ymd|]. split; [|split].
  - intros Hsep. rewrite Hrel. unfold as_posix.
    apply occurs_replace_char. exact Hsep.
  - intros Hhost _ Hnormal. rewrite Hrel, Hhost.
    apply posix_join_normal.
    + apply strftime_no_sep.
    + apply strftime_kept.
    + exact Hnormal.
  - intros Hhost _ Hnormal _. rewrite Hrel, Hhost.
    apply nt_join_normal.
    + apply strftime_no_sep.
    + apply strftime_kept.
    + exact Hnormal.
Qed.

Lemma save_returns_posix_path_witness :
  (@save_output_file posix_app black10 (Some meta_v1) "t1" "png" (world0 posix_app)
   = (Ok "2024-03-22/t1.png",
      snd (@save_output_file posix_app black10 (Some meta_v1) "t1" "png"
             (world0 posix_app))) /\
   normal_rel is_slash ("t1" +:+ "." +:+ "png") = true /\
   "2024-03-22/t1.png" = "2024-03-22" +:+ "/" +:+ "t1" +:+ "." +:+ "png") /\
  (@save_output_file nt_app black10 None "a\b" "png" (world0 nt_app)
   = (Ok "2024-03-22/a/b.png",
      snd (@save_output_file nt_app black10 None "a\b" "png" (world0 nt_app))) /\
   normal_rel is_slash_or_backslash ("a\b" +:+ "." +:+ "png") = true /\
   occurs ":" ("a\b" +:+ "." +:+ "png") = false /\
   occurs "\" "2024-03-22/a/b.png" = false /\
   "2024-03-22/a/b.png"
   = "2024-03-22" +:+ "/" +:+ replace_char "\" "/" ("a\b" +:+ "." +:+ "png")).
Proof.
  assert (Hposix :
    @save_output_file posix_app black10 (Some meta_v1) "t1" "png" (world0 posix_app)
    = (Ok "2024-03-22/t1.png",
       snd (@save_output_file posix_app black10 (Some meta_v1) "t1" "png"
              (world0 posix_app)))) by (vm_compute; reflexivity).
  assert (Hnt :
    @save_output_file nt_app black10 None "a\b" "png" (world0 nt_app)
    = (Ok "2024-03-22/a/b.png",
       snd (@save_output_file nt_app black10 None "a\b" "png" (world0 nt_app))))
    by (vm_compute; reflexivity).
  split.
  - split; [exact Hposix|]. split; [reflexivity|].
    destruct (save_returns_posix_path _ _ _ _ _ _ _ Hposix) as (_ & _ & _ & Hform & _).
    apply Hform; reflexivity.
  - split; [exact Hnt|]. split; [reflexivity|]. split; [reflexivity|].
    destruct (save_returns_posix_path _ _ _ _ _ _ _ Hnt) as (_ & _ & Hsep & _ & Hform).
    split.
    + apply Hsep. discriminate.
    + apply Hform; reflexivity.
Defined.

(** * Further properties *)

(** ** save: more of what it does *)

(** X1.  Metadata is looked at for PNG only: with the extension jpeg or webp,
    or with an empty mapping, save does exactly what it does without
    metadata, whatever the mapping holds; the file it writes then carries no
    text chunk. *)
Theorem save_ignores_metadata `{P : Platform} (img : ndarray) (image_meta : option dict)
    (image_name extension : string) (w : World) :
  extension = "jpeg" \/ extension = "webp" \/ image_meta = Some [] ->
  save_output_file img image_meta image_name extension w
  = save_output_file img None image_name extension w /\
  forall rel w',
    save_output_file img image_meta image_name extension w = (Ok rel, w') ->
    exists f,
      stat host (fs w') (save_file_path (now w) image_name extension)
      = Some (File (Picture f)) /\
      st_pnginfo f = None /\ text_chunks f = ∅.
Proof.
  intros Hcase.
  assert (Hmeta : build_meta (effective_extension extension)
                    (match image_meta with None => [] | Some d => d end) = Ok None).
  { unfold build_meta. destruct Hcase as [->|[->| ->]]; try reflexivity.
    simpl. rewrite andb_false_r. reflexivity. }
  split.
  - rewrite !save_run, Hmeta. unfold build_meta. simpl.
    rewrite andb_false_r. reflexivity.
  - intros rel w' Hsave. apply save_ok in Hsave as (meta & Hm & _ & Hst).
    rewrite Hmeta in Hm. injection Hm as <-.
    eexists. split; [exact Hst|]. split; [reflexivity|].
    unfold text_chunks. simpl. destruct (String.eqb _ _); reflexivity.
Qed.

Lemma save_ignores_metadata_witness :
  ("jpeg" = "jpeg" \/ "jpeg" = "webp" \/ Some meta_v1 = Some []) /\
  @save_output_file posix_app black10 (Some meta_v1) "t1" "jpeg" (world0 posix_app)
  = @save_output_file posix_app black10 None "t1" "jpeg" (world0 posix_app).
Proof.
  split; [left; reflexivity|].
  apply (@save_ignores_metadata posix_app black10 (Some meta_v1) "t1" "jpeg"
           (world0 posix_app)).
  left; reflexivity.
Defined.

(** X2.  A save that returns has written, at the path it resolved, a file
    in one of the three supported formats (the extension itself when it is
    supported) that holds the pixels it was given, encoded with optimize on;
    the directory of that file is there. *)
Theorem save_writes_supported_format `{P : Platform} (img : ndarray)
    (image_meta : option dict) (image_name extension : string)
    (w w' : World) (rel : string) :
  save_output_file img image_meta image_name extension w = (Ok rel, w') ->
  exists f,
    stat host (fs w') (save_file_path (now w) image_name extension)
    = Some (File (Picture f)) /\
    str_in (st_format f) ["png"; "jpeg"; "webp"] = true /\
    (str_in extension ["png"; "jpeg"; "webp"] = true -> st_format f = extension) /\
    st_image f = img /\ st_optimize f = true /\
    stat host (fs w')
      (path_dirname host (save_file_path (now w) image_name extension)) = Some Dir.
Proof.
  intros Hsave. pose proof Hsave as Hok.
  apply save_ok in Hok as (meta & _ & _ & Hst).
  eexists. split; [exact Hst|]. cbn [st_format st_image st_optimize].
  split; [|split; [|split; [reflexivity|split; [reflexivity|]]]].
  - unfold effective_extension.
    destruct (str_in extension ["png"; "jpeg"; "webp"]) eqn:Hin;
      [exact Hin|reflexivity].
  - intros Hin. unfold effective_extension. rewrite Hin. reflexivity.
  - rewrite save_run in Hsave.
    destruct (build_meta _ _) as [m|e]; [|discriminate].
    apply write_out_ok in Hsave
      as (fs1 & Hmk & _ & _ & Hnul & Hroot & Hnd & Hfs & _ & _).
    set (p := save_file_path (now w) image_name extension) in *.
    apply makedirs_ok_dir in Hmk.
    rewrite Hfs, stat_insert_ne; [exact Hmk|].
    intros Heq. rewrite Heq in Hmk. unfold stat in Hmk.
    rewrite Hnul, Hroot in Hmk. exact (Hnd Hmk).
Qed.

Lemma save_writes_supported_format_witness :
  @save_output_file posix_app black10 None "t1" "webp" (world0 posix_app)
  = (Ok "2024-03-22/t1.webp",
     snd (@save_output_file posix_app black10 None "t1" "webp" (world0 posix_app))) /\
  exists f,
    stat posix
      (fs (snd (@save_output_file posix_app black10 None "t1" "webp" (world0 posix_app))))
      "/app/outputs/files/2024-03-22/t1.webp" = Some (File (Picture f)) /\
    st_format f = "webp" /\ st_image f = black10.
Proof.
  assert (Hsave :
    @save_output_file posix_app black10 None "t1" "webp" (world0 posix_app)
    = (Ok "2024-03-22/t1.webp",
       snd (@save_output_file posix_app black10 None "t1" "webp" (world0 posix_app))))
    by (vm_compute; reflexivity).
  split; [exact Hsave|].
  destruct (save_writes_supported_format _ _ _ _ _ _ _ Hsave)
    as (f & Hst & _ & Hfmt & Himg & _).
  exists f. split; [exact Hst|]. split; [apply Hfmt; reflexivity|exact Himg].
Defined.

(** X3.  Whatever its outcome (return or exception), save removes nothing
    and turns no directory into a file: every path that held a directory
    still holds one, and every path that held a file still holds a file.  It
    logs nothing, never calls the storage client, and leaves the clock and
    the environment alone. *)
Theorem save_removes_nothing `{P : Platform} (img : ndarray)
    (image_meta : option dict) (image_name extension : string) (w : World) :
  let w' := snd (save_output_file img image_meta image_name extension w) in
  (forall q, fs w !! q = Some Dir -> fs w' !! q = Some Dir) /\
  (forall q c, fs w !! q = Some (File c) -> exists c', fs w' !! q = Some (File c')) /\
  log w' = log w /\ storage_calls w' = storage_calls w /\
  now w' = now w /\ environ w' = environ w.
Proof.
  cbv zeta. rewrite save_run.
  destruct (build_meta _ _) as [meta|e].
  - pose proof (write_out_frame img (save_file_path (now w) image_name extension)
                  (effective_extension extension) meta
                  (save_filename (now w) image_name extension) w)
      as (_ & Hn & He & Hl & Hc & Hd & Hf).
    repeat split; assumption.
  - simpl. repeat split; eauto.
Qed.

Lemma save_removes_nothing_witness :
  let w1 := snd (@save_output_file posix_app black10 None "t1" "png" (world0 posix_app)) in
  let w2 := snd (@save_output_file posix_app black10 (Some meta_v1) "t2" "png" w1) in
  fs w1 !! "/app/outputs/files" = Some Dir /\
  fs w2 !! "/app/outputs/files" = Some Dir /\
  exists c, fs w2 !! "/app/outputs/files/2024-03-22/t1.png" = Some (File c).
Proof.
  intros w1 w2.
  assert (Hdir : fs w1 !! "/app/outputs/files" = Some Dir) by (vm_compute; reflexivity).
  assert (Hfile : exists c, fs w1 !! "/app/outputs/files/2024-03-22/t1.png" = Some (File c))
    by (eexists; vm_compute; reflexivity).
  destruct (@save_removes_nothing posix_app black10 (Some meta_v1) "t2" "png" w1)
    as (Hd & Hf & _).
  split; [exact Hdir|]. split; [exact (Hd _ Hdir)|].
  destruct Hfile as [c Hc]. exact (Hf _ c Hc).
Defined.

(** X4.  Saving again under the same name on the same day overwrites
    silently: after a save that returned, a second save with the same name,
    extension and metadata, run on the same day on the filesystem as the
    first one left it, returns the same path for every image Pillow takes
    and encodes, provided the system does not refuse to rewrite the file;
    the file then holds the second image. *)
Theorem save_again_overwrites `{P : Platform} (img img2 : ndarray)
    (image_meta : option dict) (image_name extension : string)
    (w w1 v : World) (rel : string) :
  save_output_file img image_meta image_name extension w = (Ok rel, w1) ->
  fs v = fs w1 -> now v = now w ->
  pil_accepts img2 (effective_extension extension) = true ->
  pil_encodes img2 (effective_extension extension) = true ->
  refuses v (Truncate (save_file_path (now w) image_name extension)) = None ->
  exists v2 f,
    save_output_file img2 image_meta image_name extension v = (Ok rel, v2) /\
    stat host (fs v2) (save_file_path (now w) image_name extension)
    = Some (File (Picture f)) /\
    st_image f = img2 /\
    st_format f = effective_extension extension.
Proof.
  intros Hsave Hfsv Hnow Hpil Henc Href. rewrite save_run in Hsave.
  destruct (build_meta _ _) as [meta|e] eqn:Hmeta; [|discriminate].
  apply write_out_ok in Hsave
    as (fs1 & Hmk & _ & _ & Hnul & Hroot & Hnd & Hfs & _ & Hrel).
  set (p := save_file_path (now w) image_name extension) in *.
  set (d := path_dirname host p) in *.
  rewrite <- Hfsv in Hfs.
  assert (Hst : stat host (fs v) p
                = Some (File (Picture {| st_format := effective_extension extension;
                                         st_image := img; st_pnginfo := meta;
                                         st_optimize := true |}))).
  { rewrite Hfs. apply stat_insert; assumption. }
  assert (Hd : d <> EmptyString).
  { intros Hd. unfold makedirs in Hmk. rewrite Hd in Hmk. discriminate. }
  assert (Hdirs : Forall (fun a => stat host (fs v) a = Some Dir) (ancestors host d)).
  { unfold makedirs in Hmk. apply String.eqb_neq in Hd. rewrite Hd in Hmk.
    apply mkdirs_ok_dirs in Hmk.
    eapply Forall_impl; [exact Hmk|]. intros a Ha. simpl in Ha.
    rewrite Hfs, stat_insert_ne; [exact Ha|].
    intros Heq. rewrite Heq in Ha. unfold stat in Ha.
    rewrite Hnul, Hroot in Ha. exact (Hnd Ha). }
  assert (Hmk2 : makedirs host (refuses v) (fs v) d = (None, fs v)).
  { unfold makedirs. apply String.eqb_neq in Hd. rewrite Hd.
    apply mkdirs_again. exact Hdirs. }
  assert (Hdir : stat host (fs v) d = Some Dir).
  { rewrite Forall_forall in Hdirs. apply Hdirs. apply list_elem_of_In.
    exact (ancestors_from_last host EmptyString d). }
  eexists _, _. split; [|split; [|split]].
  - rewrite save_run, Hnow, Hmeta, write_out_run. fold p. fold d.
    rewrite Hmk2, Hpil.
    rewrite (open_wb_again host (refuses v) _ p _ Hst Hd Hdir Href).
    rewrite Henc, Hrel. reflexivity.
  - simpl. rewrite insert_insert_eq. apply stat_insert; assumption.
  - reflexivity.
  - reflexivity.
Qed.

Lemma save_again_overwrites_witness :
  let w1 := snd (@save_output_file posix_app black10 None "t1" "png" (world0 posix_app)) in
  let white : gray_array := repeat (repeat 255%N 10) 10 in
  @save_output_file posix_app black10 None "t1" "png" (world0 posix_app)
  = (Ok "2024-03-22/t1.png", w1) /\
  refuses w1 (Truncate "/app/outputs/files/2024-03-22/t1.png") = None /\
  exists w2 f,
    @save_output_file posix_app white None "t1" "png" w1 = (Ok "2024-03-22/t1.png", w2) /\
    stat posix (fs w2) "/app/outputs/files/2024-03-22/t1.png" = Some (File (Picture f)) /\
    st_image f = white.
Proof.
  intros w1 white.
  assert (Hsave :
    @save_output_file posix_app black10 None "t1" "png" (world0 posix_app)
    = (Ok "2024-03-22/t1.png", w1)) by (vm_compute; reflexivity).
  split; [exact Hsave|]. split; [reflexivity|].
  destruct (@save_again_overwrites posix_app black10 white None "t1" "png"
              (world0 posix_app) w1 w1 "2024-03-22/t1.png" Hsave
              eq_refl eq_refl eq_refl eq_refl eq_refl)
    as (w2 & f & Hsave2 & Hst & Himg & _).
  exists w2, f. split; [exact Hsave2|]. split; [exact Hst|exact Himg].
Defined.

(** ** delete and upload: their whole effect *)

Section Effects.
Context `{P : Platform}.

(** Lines 140-154, by what they leave behind. *)
Lemma upload_effect (filename transaction_id user_id : option string) (w : World) :
  let w' := snd (upload_to_storage filename transaction_id user_id w) in
  fs w' = fs w /\ log w' = log w /\ refuses w' = refuses w /\ now w' = now w /\
  environ w' = environ w /\
  exists calls, storage_calls w' = storage_calls w ++ calls /\ (length calls <= 2)%nat.
Proof.
  cbv zeta.
  assert (Hnone : forall w0 : World,
            fs w0 = fs w0 /\ log w0 = log w0 /\ refuses w0 = refuses w0 /\
            now w0 = now w0 /\ environ w0 = environ w0 /\
            exists calls, storage_calls w0 = storage_calls w0 ++ calls /\
                          (length calls <= 2)%nat).
  { intros w0. repeat split. exists []. rewrite app_nil_r. simpl. split; [reflexivity|lia]. }
  destruct filename as [f|]; [|apply Hnone].
  destruct transaction_id as [t|]; [|apply Hnone].
  destruct user_id as [u|]; [|apply Hnone].
  destruct (upload_to_storage (Some f) (Some t) (Some u) w) as [r w'] eqn:Hrun.
  unfold upload_to_storage in Hrun. revert Hrun. run_checks.
  destruct (regular_file w (path_join host output_dir f)); simpl.
  - unfold bind, os_environ_get, storage_upload, storage_get_public_url, ret.
    destruct (storage_fault _ _); intros [= <- <-]; simpl; repeat split.
    + eexists. split; [reflexivity|]. simpl. lia.
    + eexists. rewrite <- app_assoc. split; [reflexivity|]. simpl. lia.
  - intros [= <- <-]. apply Hnone.
Qed.

End Effects.

(** X5.  delete only removes: whatever its outcome, every path that holds
    something afterwards held the same before, so nothing is created and
    nothing is rewritten; the log only grows, and the storage client, the
    clock and the environment are left alone. *)
Theorem delete_only_removes `{P : Platform} (filename : string) (w : World) :
  let w' := snd (delete_output_file filename w) in
  (forall q x, fs w' !! q = Some x -> fs w !! q = Some x) /\
  (exists entries, log w' = log w ++ entries) /\
  storage_calls w' = storage_calls w /\ now w' = now w /\ environ w' = environ w.
Proof.
  cbv zeta.
  destruct (delete_frame filename w) as (Hsub & Hlog & _ & Hnow & Henv & Hcalls).
  auto.
Qed.

Lemma delete_only_removes_witness :
  let w1 := snd (@save_output_file posix_app black10 None "t1" "png" (world0 posix_app)) in
  let w2 := snd (@save_output_file posix_app black10 None "t2" "png" w1) in
  let w3 := snd (@delete_output_file posix_app "2024-03-22/t1.png" w2) in
  fs w3 !! "/app/outputs/files/2024-03-22/t2.png"
  = fs w2 !! "/app/outputs/files/2024-03-22/t2.png" /\
  is_Some (fs w3 !! "/app/outputs/files/2024-03-22/t2.png") /\
  fs w3 !! "/app/outputs/files/2024-03-22/t1.png" = None.
Proof.
  intros w1 w2 w3.
  assert (H3 : is_Some (fs w3 !! "/app/outputs/files/2024-03-22/t2.png"))
    by (vm_compute; eauto).
  split; [|split; [exact H3|vm_compute; reflexivity]].
  destruct H3 as [x Hx].
  destruct (@delete_only_removes posix_app "2024-03-22/t1.png" w2) as (Hsub & _).
  rewrite Hx. symmetry. exact (Hsub _ _ Hx).
Defined.

(** X6.  Deleting twice: for a name whose resolved path holds no NUL, after
    a delete that the system did not refuse (the file was removed, or there
    was no file to remove), the resolved path is not a regular file, and a
    second delete of the same name returns, leaves the filesystem as the
    first one left it, and logs the 'not exists' warning followed by the
    'failed' error. *)
Theorem delete_twice `{P : Platform} (filename : string) (w : World) :
  has_nul (resolve filename) = false ->
  (regular_file w (resolve filename) = true ->
   refuses w (Unlink (resolve filename)) = None) ->
  let w1 := snd (delete_output_file filename w) in
  let w2 := snd (delete_output_file filename w1) in
  fst (delete_output_file filename w1) = Ok tt /\
  regular_file w1 (resolve filename) = false /\
  fs w2 = fs w1 /\
  log w2 = log w1 ++
    [(WARN, "[Fooocus API] " +:+ filename +:+ " not exists or is not a file");
     (ERROR, "[Fooocus API] Delete output file failed: " +:+ filename)].
Proof.
  intros Hnul Href. cbv zeta. set (p := resolve filename) in *.
  destruct (delete_effect filename w Hnul) as (_ & Hfs1 & _).
  destruct (delete_effect filename (snd (delete_output_file filename w)) Hnul)
    as (Hret2 & Hfs2 & Hlog2 & _).
  cbv zeta in *. fold p in Hfs1, Hfs2, Hlog2.
  set (w1 := snd (delete_output_file filename w)) in *.
  assert (Hgone : regular_file w1 p = false).
  { destruct (regular_file w p) eqn:Hreg.
    - rewrite (Href eq_refl) in Hfs1. simpl in Hfs1.
      apply regular_file_stat in Hreg as [c Hc].
      unfold regular_file. rewrite Hfs1, (stat_delete _ _ _ _ Hc). reflexivity.
    - simpl in Hfs1. unfold regular_file in *. rewrite Hfs1. exact Hreg. }
  rewrite Hgone in Hfs2, Hlog2. simpl in Hfs2.
  split; [exact Hret2|]. split; [exact Hgone|]. split; [exact Hfs2|exact Hlog2].
Qed.

Lemma delete_twice_witness :
  let w0 := snd (@save_output_file posix_app black10 None "t1" "png" (world0 posix_app)) in
  let w1 := snd (@delete_output_file posix_app "2024-03-22/t1.png" w0) in
  let w2 := snd (@delete_output_file posix_app "2024-03-22/t1.png" w1) in
  has_nul (@resolve posix_app "2024-03-22/t1.png") = false /\
  @regular_file posix_app w0 (@resolve posix_app "2024-03-22/t1.png") = true /\
  refuses w0 (Unlink (@resolve posix_app "2024-03-22/t1.png")) = None /\
  fs w2 = fs w1 /\
  log w2 =
    [(INFO, "[Fooocus API] Delete output file: 2024-03-22/t1.png");
     (WARN, "[Fooocus API] 2024-03-22/t1.png not exists or is not a file");
     (ERROR, "[Fooocus API] Delete output file failed: 2024-03-22/t1.png")].
Proof.
  intros w0 w1 w2.
  split; [reflexivity|]. split; [vm_compute; reflexivity|]. split; [reflexivity|].
  destruct (@delete_twice posix_app "2024-03-22/t1.png" w0 eq_refl (fun _ => eq_refl))
    as (_ & _ & Hfs & Hlog).
  split; [exact Hfs|].
  fold w1 w2 in Hlog. rewrite Hlog. vm_compute. reflexivity.
Defined.

(** X7.  upload never changes anything local: the filesystem, the log, the
    clock and the environment are as before whatever it returns or raises,
    and it makes at most two calls on the storage client, added at the end of
    the trace. *)
Theorem upload_changes_nothing_local `{P : Platform}
    (filename transaction_id user_id : option string) (w : World) :
  let w' := snd (upload_to_storage filename transaction_id user_id w) in
  fs w' = fs w /\ log w' = log w /\ now w' = now w /\ environ w' = environ w /\
  exists calls, storage_calls w' = storage_calls w ++ calls /\ (length calls <= 2)%nat.
Proof.
  cbv zeta.
  destruct (upload_effect filename transaction_id user_id w)
    as (Hfs & Hlog & _ & Hnow & Henv & Hcalls).
  auto.
Qed.

(** ** save and the functions that take its result *)

Lemma posix_join_rel (d p : string) :
  has_sep is_slash d = false -> kept d = true ->
  normal_rel is_slash p = true ->
  path_join posix d p = d +:+ "/" +:+ p.
Proof.
  intros Hd Hk Hp. simpl. unfold gen_join.
  rewrite (normal_rel_start _ _ Hp).
  assert (Hne : String.eqb d EmptyString = false).
  { unfold kept in Hk. apply andb_prop in Hk as [Hk _].
    apply negb_true_iff in Hk. exact Hk. }
  rewrite Hne, (ends_with_sep_app _ _ Hd). reflexivity.
Qed.

Section SaveThen.
Context `{P : Platform}.

(** On a POSIX host, for a name in normal form, the path save returns is
    [filename] itself, so it resolves to the file that was written. *)
Lemma save_ok_posix (img : ndarray) (image_meta : option dict)
    (image_name extension : string) (w w' : World) (rel : string) :
  host = posix ->
  normal_rel is_slash (image_name +:+ "." +:+ extension) = true ->
  save_output_file img image_meta image_name extension w = (Ok rel, w') ->
  resolve rel = save_file_path (now w) image_name extension /\
  exists meta,
    stat host (fs w') (resolve rel)
    = Some (File (Picture {| st_format := effective_extension extension;
                             st_image := img; st_pnginfo := meta;
                             st_optimize := true |})).
Proof.
  intros Hhost Hnormal Hsave.
  apply save_ok in Hsave as (meta & _ & Hrel & Hst).
  assert (Hres : resolve rel = save_file_path (now w) image_name extension).
  { rewrite Hrel. unfold resolve, save_file_path, save_filename. rewrite Hhost.
    rewrite (posix_join_normal (strftime_ymd (now w))
               (image_name +:+ "." +:+ extension)
               (proj1 (strftime_no_sep _)) (strftime_kept _) Hnormal).
    rewrite (posix_join_rel (strftime_ymd (now w))
               (image_name +:+ "." +:+ extension)
               (proj1 (strftime_no_sep _)) (strftime_kept _) Hnormal).
    reflexivity. }
  split; [exact Hres|]. exists meta. rewrite Hres. exact Hst.
Qed.

End SaveThen.

(** X8.  On a POSIX host, for a name such that <name>.<extension> is a
    relative path in normal form, the path a save returns is a handle the
    readers accept: to_bytes on it is never absent, it is Pillow's PNG
    re-encoding of the file the save wrote, with the pixels that were saved
    (or Pillow's error). *)
Theorem saved_path_reads_back `{P : Platform} (img : ndarray)
    (image_meta : option dict) (image_name extension : string)
    (w w' : World) (rel : string) :
  host = posix ->
  normal_rel is_slash (image_name +:+ "." +:+ extension) = true ->
  save_output_file img image_meta image_name extension w = (Ok rel, w') ->
  exists f,
    st_image f = img /\ st_format f = effective_extension extension /\
    stat host (fs w') (resolve rel) = Some (File (Picture f)) /\
    output_file_to_bytesimg (Some rel) w'
    = (match pil_reencode_png (Picture f) with
       | Ok byte_data => Ok (Some byte_data)
       | Raise e => Raise e
       end, w').
Proof.
  intros Hhost Hnormal Hsave.
  destruct (save_ok_posix _ _ _ _ _ _ _ Hhost Hnormal Hsave) as (_ & meta & Hst).
  exists {| st_format := effective_extension extension; st_image := img;
            st_pnginfo := meta; st_optimize := true |}.
  split; [reflexivity|]. split; [reflexivity|]. split; [exact Hst|].
  unfold output_file_to_bytesimg. run_checks.
  unfold resolve in Hst. unfold regular_file. rewrite Hst. simpl.
  unfold bind, Image_open_save_png, ret.
  rewrite (stat_no_nul _ _ _ _ Hst), Hst.
  destruct (pil_reencode_png _); reflexivity.
Qed.

Lemma saved_path_reads_back_witness :
  let w1 := snd (@save_output_file posix_app black10 (Some meta_v1) "t1" "png"
                   (world0 posix_app)) in
  normal_rel is_slash ("t1" +:+ "." +:+ "png") = true /\
  @save_output_file posix_app black10 (Some meta_v1) "t1" "png" (world0 posix_app)
  = (Ok "2024-03-22/t1.png", w1) /\
  exists f,
    st_image f = black10 /\
    @output_file_to_bytesimg posix_app (Some "2024-03-22/t1.png") w1
    = (match @pil_reencode_png posix_app (Picture f) with
       | Ok byte_data => Ok (Some byte_data)
       | Raise e => Raise e
       end, w1).
Proof.
  intros w1.
  assert (Hsave :
    @save_output_file posix_app black10 (Some meta_v1) "t1" "png" (world0 posix_app)
    = (Ok "2024-03-22/t1.png", w1)) by (vm_compute; reflexivity).
  split; [reflexivity|]. split; [exact Hsave|].
  destruct (@saved_path_reads_back posix_app black10 (Some meta_v1) "t1" "png"
              (world0 posix_app) w1 "2024-03-22/t1.png" eq_refl eq_refl Hsave)
    as (f & Himg & _ & _ & Hread).
  exists f. split; [exact Himg|exact Hread].
Defined.

(** X9.  On a POSIX host, for a name in normal form: when the system does
    not refuse the removal, deleting the path a save returned removes the
    file the save wrote and logs the removal; afterwards nothing is at that
    path, to_bytes, to_base64 and upload on it return absent, and upload
    does not reach the storage client. *)
Theorem saved_path_deletes `{P : Platform} (img : ndarray)
    (image_meta : option dict) (image_name extension : string)
    (w w1 : World) (rel : string) :
  host = posix ->
  normal_rel is_slash (image_name +:+ "." +:+ extension) = true ->
  save_output_file img image_meta image_name extension w = (Ok rel, w1) ->
  refuses w1 (Unlink (resolve rel)) = None ->
  let w2 := snd (delete_output_file rel w1) in
  fst (delete_output_file rel w1) = Ok tt /\
  resolve rel = save_file_path (now w) image_name extension /\
  stat host (fs w2) (resolve rel) = None /\
  log w2 = log w1 ++ [(INFO, "[Fooocus API] Delete output file: " +:+ rel)] /\
  output_file_to_bytesimg (Some rel) w2 = (Ok None, w2) /\
  output_file_to_base64img (Some rel) w2 = (Ok None, w2) /\
  forall transaction_id user_id,
    upload_to_storage (Some rel) transaction_id user_id w2 = (Ok None, w2).
Proof.
  intros Hhost Hnormal Hsave Href.
  destruct (save_ok_posix _ _ _ _ _ _ _ Hhost Hnormal Hsave) as (Hres & meta & Hst).
  destruct (delete_effect rel w1 (stat_no_nul _ _ _ _ Hst)) as (Hret & Hfs & Hlog & _).
  cbv zeta in *.
  assert (Hreg : regular_file w1 (resolve rel) = true).
  { unfold regular_file. rewrite Hst. reflexivity. }
  rewrite Hreg, Href in Hfs, Hlog. simpl in Hfs, Hlog.
  set (w2 := snd (delete_output_file rel w1)) in *.
  assert (Hnone : stat host (fs w2) (resolve rel) = None).
  { rewrite Hfs. exact (stat_delete _ _ _ _ Hst). }
  assert (Hgone : regular_file w2 (resolve rel) = false).
  { unfold regular_file. rewrite Hnone. reflexivity. }
  split; [exact Hret|]. split; [exact Hres|]. split; [exact Hnone|].
  split; [exact Hlog|]. unfold resolve in Hgone.
  split; [|split].
  - unfold output_file_to_bytesimg. run_checks. rewrite Hgone. reflexivity.
  - unfold output_file_to_base64img. run_checks. rewrite Hgone. reflexivity.
  - intros [t|] [u|]; try reflexivity.
    unfold upload_to_storage. run_checks. rewrite Hgone. reflexivity.
Qed.

Lemma saved_path_deletes_witness :
  let w1 := snd (@save_output_file posix_app black10 None "t1" "png" (world0 posix_app)) in
  let w2 := snd (@delete_output_file posix_app "2024-03-22/t1.png" w1) in
  normal_rel is_slash ("t1" +:+ "." +:+ "png") = true /\
  @save_output_file posix_app black10 None "t1" "png" (world0 posix_app)
  = (Ok "2024-03-22/t1.png", w1) /\
  refuses w1 (Unlink (@resolve posix_app "2024-03-22/t1.png")) = None /\
  @output_file_to_base64img posix_app (Some "2024-03-22/t1.png") w2 = (Ok None, w2) /\
  @upload_to_storage posix_app (Some "2024-03-22/t1.png") (Some "tx7") (Some "u1") w2
  = (Ok None, w2).
Proof.
  intros w1 w2.
  assert (Hsave :
    @save_output_file posix_app black10 None "t1" "png" (world0 posix_app)
    = (Ok "2024-03-22/t1.png", w1)) by (vm_compute; reflexivity).
  split; [reflexivity|]. split; [exact Hsave|]. split; [reflexivity|].
  destruct (@saved_path_deletes posix_app black10 None "t1" "png"
              (world0 posix_app) w1 "2024-03-22/t1.png" eq_refl eq_refl Hsave eq_refl)
    as (_ & _ & _ & _ & _ & Hb64 & Hup).
  split; [exact Hb64|apply Hup].
Defined.

(** ** upload: the object key *)

Lemma app_sep_inj (c : ascii) (a a' b b' : string) :
  occurs c a = false -> occurs c a' = false ->
  a +:+ String c b = a' +:+ String c b' -> a = a' /\ b = b'.
Proof.
  revert a'. induction a as [|x a IH]; intros [|x' a'] Ha Ha' Heq.
  - injection Heq as <-. auto.
  - rewrite string_app_cons in Heq. injection Heq as <- _.
    simpl in Ha'. rewrite Ascii.eqb_refl in Ha'. discriminate.
  - rewrite string_app_cons in Heq. injection Heq as -> _.
    simpl in Ha. rewrite Ascii.eqb_refl in Ha. discriminate.
  - rewrite !string_app_cons in Heq. injection Heq as <- Heq.
    simpl in Ha, Ha'. apply orb_false_elim in Ha as [_ Ha].
    apply orb_false_elim in Ha' as [_ Ha'].
    destruct (IH a' Ha Ha' Heq) as [-> ->]. auto.
Qed.

Lemma bucket_path_inj (u t f u' t' f' : string) :
  occurs "/" u = false -> occurs "/" t = false ->
  occurs "/" u' = false -> occurs "/" t' = false ->
  bucket_path u t f = bucket_path u' t' f' -> u = u' /\ t = t' /\ f = f'.
Proof.
  intros Hu Ht Hu' Ht' Heq. unfold bucket_path in Heq.
  apply (app_sep_inj "/" u u') in Heq as [-> Heq]; [|assumption..].
  apply (app_sep_inj "/" t t') in Heq as [-> ->]; auto.
Qed.

(** The first call of an upload that gets past the checks. *)
Lemma upload_first_call `{P : Platform} (filename transaction_id user_id : string)
    (w : World) :
  regular_file w (resolve filename) = true ->
  exists rest,
    storage_calls (snd (upload_to_storage (Some filename) (Some transaction_id)
                          (Some user_id) w))
    = storage_calls w ++
      Upload (environ w !! "SUPABASE_BUCKET_NAME") (resolve filename)
        (bucket_path user_id transaction_id filename)
        [("content-type", "image/jpeg")] :: rest.
Proof.
  intros Hreg. unfold resolve in *.
  unfold upload_to_storage. run_checks. rewrite Hreg. simpl.
  unfold bind, os_environ_get, storage_upload, storage_get_public_url, ret.
  destruct (storage_fault _ _); simpl.
  - exists []. reflexivity.
  - eexists. rewrite <- app_assoc. reflexivity.
Qed.

(** X10.  The object key tells the uploads apart when the identifiers hold
    no slash: two uploads of existing files, from the same state, with
    slash-free user and transaction identifiers, make the same calls on the
    storage client only if user, transaction and file are the same. *)
Theorem upload_key_tells_apart `{P : Platform}
    (f t u f' t' u' : string) (w : World) :
  regular_file w (resolve f) = true -> regular_file w (resolve f') = true ->
  occurs "/" u = false -> occurs "/" t = false ->
  occurs "/" u' = false -> occurs "/" t' = false ->
  storage_calls (snd (upload_to_storage (Some f) (Some t) (Some u) w))
  = storage_calls (snd (upload_to_storage (Some f') (Some t') (Some u') w)) ->
  u = u' /\ t = t' /\ f = f'.
Proof.
  intros Hf Hf' Hu Ht Hu' Ht' Hcalls.
  destruct (upload_first_call f t u w Hf) as [rest Hc].
  destruct (upload_first_call f' t' u' w Hf') as [rest' Hc'].
  rewrite Hc, Hc' in Hcalls. apply app_inv_head in Hcalls.
  injection Hcalls as _ Hkey _.
  exact (bucket_path_inj _ _ _ _ _ _ Hu Ht Hu' Ht' Hkey).
Qed.

Lemma upload_key_tells_apart_witness :
  let w1 := snd (@save_output_file posix_app black10 None "t1" "png" (world0 posix_app)) in
  @regular_file posix_app w1 (@resolve posix_app "2024-03-22/t1.png") = true /\
  occurs "/" "u1" = false /\ occurs "/" "tx7" = false /\
  storage_calls (snd (@upload_to_storage posix_app (Some "2024-03-22/t1.png")
                        (Some "tx7") (Some "u1") w1))
  = storage_calls (snd (@upload_to_storage posix_app (Some "2024-03-22/t1.png")
                          (Some "tx7") (Some "u1") w1)) /\
  ("u1" = "u1" /\ "tx7" = "tx7" /\ "2024-03-22/t1.png" = "2024-03-22/t1.png").
Proof.
  intros w1.
  assert (Hreg : @regular_file posix_app w1 (@resolve posix_app "2024-03-22/t1.png") = true)
    by (vm_compute; reflexivity).
  split; [exact Hreg|]. split; [reflexivity|]. split; [reflexivity|].
  split; [reflexivity|].
  exact (@upload_key_tells_apart posix_app "2024-03-22/t1.png" "tx7" "u1"
           "2024-03-22/t1.png" "tx7" "u1" w1 Hreg Hreg
           eq_refl eq_refl eq_refl eq_refl eq_refl).
Defined.

(** ** serve_url: which paths share a URL *)

Lemma replace_char_absent (old new : ascii) (s : string) :
  occurs old s = false -> replace_char old new s = s.
Proof.
  induction s as [|c s IH]; [reflexivity|].
  simpl. intros H. apply orb_false_elim in H as [Hc Hs].
  rewrite Hc, (IH Hs). reflexivity.
Qed.

Lemma replace_char_twice (old new : ascii) (s : string) :
  old <> new ->
  replace_char old new (replace_char old new s) = replace_char old new s.
Proof.
  intros Hne. apply replace_char_absent. apply occurs_replace_char. exact Hne.
Qed.

Lemma string_app_inv_head (a x y : string) : a +:+ x = a +:+ y -> x = y.
Proof.
  induction a as [|c a IH]; [auto|].
  rewrite !string_app_cons. intros [= H]. exact (IH H).
Qed.

(** X11.  Two paths get the same serving URL exactly when they are the same
    up to the direction of their slashes: a path and its spelling with
    forward slashes share a URL, and paths without a backslash with the same
    URL are equal. *)
Theorem serve_url_up_to_slashes (s s' : string) :
  (get_file_serve_url (Some s) = get_file_serve_url (Some s') <->
   replace_char "\" "/" s = replace_char "\" "/" s') /\
  get_file_serve_url (Some (replace_char "\" "/" s)) = get_file_serve_url (Some s) /\
  (occurs "\" s = false -> occurs "\" s' = false ->
   get_file_serve_url (Some s) = get_file_serve_url (Some s') -> s = s').
Proof.
  assert (Hiff : get_file_serve_url (Some s) = get_file_serve_url (Some s') <->
                 replace_char "\" "/" s = replace_char "\" "/" s').
  { unfold get_file_serve_url. split.
    - intros [= H]. exact (string_app_inv_head _ _ _ H).
    - intros ->. reflexivity. }
  split; [exact Hiff|]. split.
  - unfold get_file_serve_url. rewrite replace_char_twice by discriminate. reflexivity.
  - intros Hs Hs' Heq. apply Hiff in Heq.
    rewrite !replace_char_absent in Heq by assumption. exact Heq.
Qed.

Lemma serve_url_up_to_slashes_witness :
  occurs "\" "2024-03-22/t1.png" = false /\
  occurs "\" "2024-03-22/t2.png" = false /\
  get_file_serve_url (Some "a\b.png") = get_file_serve_url (Some "a/b.png") /\
  (get_file_serve_url (Some "2024-03-22/t1.png")
   = get_file_serve_url (Some "2024-03-22/t2.png") ->
   "2024-03-22/t1.png" = "2024-03-22/t2.png").
Proof.
  split; [reflexivity|]. split; [reflexivity|].
  destruct (serve_url_up_to_slashes "a\b.png" "a/b.png") as (Hiff & _ & _).
  destruct (serve_url_up_to_slashes "2024-03-22/t1.png" "2024-03-22/t2.png")
    as (_ & _ & Hinj).
  split.
  - apply Hiff. reflexivity.
  - apply Hinj; reflexivity.
Defined.

(** X12.  On a host whose separator is the backslash, the serving URL of the
    path a save returns is the static-server base followed by that path
    unchanged. *)
Theorem serve_url_of_saved_path `{P : Platform} (img : ndarray)
    (image_meta : option dict) (image_name extension : string)
    (w w' : World) (rel : string) :
  sep host = "\"%char ->
  save_output_file img image_meta image_name extension w = (Ok rel, w') ->
  get_file_serve_url (Some rel) = Some (STATIC_SERVER_BASE +:+ rel).
Proof.
  intros Hsep Hsave. apply save_format_and_name in Hsave as [Hrel _].
  unfold get_file_serve_url. rewrite replace_char_absent; [reflexivity|].
  rewrite Hrel. unfold as_posix. rewrite Hsep.
  apply occurs_replace_char. discriminate.
Qed.

Lemma serve_url_of_saved_path_witness :
  sep (@host nt_app) = "\"%char /\
  @save_output_file nt_app black10 None "a\b" "png" (world0 nt_app)
  = (Ok "2024-03-22/a/b.png",
     snd (@save_output_file nt_app black10 None "a\b" "png" (world0 nt_app))) /\
  get_file_serve_url (Some "2024-03-22/a/b.png")
  = Some (STATIC_SERVER_BASE +:+ "2024-03-22/a/b.png").
Proof.
  assert (Hsave :
    @save_output_file nt_app black10 None "a\b" "png" (world0 nt_app)
    = (Ok "2024-03-22/a/b.png",
       snd (@save_output_file nt_app black10 None "a\b" "png" (world0 nt_app))))
    by (vm_compute; reflexivity).
  split; [reflexivity|]. split; [exact Hsave|].
  exact (@serve_url_of_saved_path nt_app _ _ _ _ _ _ _ eq_refl Hsave).
Defined.

(** ** The output directory *)

(** X13.  Creating the output directory at import: when it returns, the
    output directory is there, everything that was in the filesystem is
    still there, and running it again returns and changes nothing. *)
Theorem make_output_dir_once `{P : Platform} (w w1 : World) :
  make_output_dir w = (Ok tt, w1) ->
  stat host (fs w1) output_dir = Some Dir /\
  (forall q x, fs w !! q = Some x -> fs w1 !! q = Some x) /\
  exists w2, make_output_dir w1 = (Ok tt, w2) /\ fs w2 = fs w1.
Proof.
  unfold make_output_dir, os_makedirs, os_result.
  destruct (makedirs host (refuses w) (fs w) output_dir) as [[e|] fs1] eqn:Hmk;
    [discriminate|].
  intros [= <-]. simpl.
  split; [exact (makedirs_ok_dir _ _ _ _ _ Hmk)|].
  split; [exact (makedirs_keeps _ _ _ _ _ _ Hmk)|].
  unfold makedirs in *.
  destruct (String.eqb output_dir EmptyString); [discriminate|].
  rewrite (mkdirs_again host (refuses w) _ fs1 (mkdirs_ok_dirs _ _ _ _ _ Hmk)).
  eexists. split; reflexivity.
Qed.

Lemma make_output_dir_once_witness :
  let w0 : @World posix_app :=
    {| fs := ∅; refuses := permissive; now := {| year := 2024; month := 3; day := 22 |};
       environ := ∅; log := []; storage_calls := [] |} in
  @make_output_dir posix_app w0 = (Ok tt, snd (@make_output_dir posix_app w0)) /\
  stat posix (fs (snd (@make_output_dir posix_app w0))) "/app/outputs/files" = Some Dir.
Proof.
  intros w0.
  assert (Hrun : @make_output_dir posix_app w0
                 = (Ok tt, snd (@make_output_dir posix_app w0)))
    by (vm_compute; reflexivity).
  split; [exact Hrun|].
  destruct (@make_output_dir_once posix_app w0 _ Hrun) as (Hdir & _).
  exact Hdir.
Defined.

(** ** save: a scheme that is not text *)


